(** * Movie-genre-prediction data gathering: a shallow embedding

    The repository consists of four batch scripts that share a file-system
    convention:

    - [data-gathering/scrape.py]   the link collector ([scrape_filmweb_links]);
    - [scrape_details.py]          the detail enricher ([scrape_range]);
    - [refill_missing.py]          the gap finder ([find_pages_with_missing]);
    - [verify_links.py]            the completeness verifier ([verify]).

    Python [int]s are [Z]; Python [str]s are [string], a character standing
    for the code point of its number (text with code points above 255 is
    outside the model); a CSV file is the list of rows [csv.reader] yields
    for it; a directory is a finite map from file names to nodes; and the
    Playwright page object is an abstract state-passing interface. *)

From stdpp Require Import gmap strings list pretty sorting.
From Stdlib Require Import Ascii ZArith Lia.

(** ** Python string methods *)

Module PyStr.

(** [str.isspace] on the code points the model has: TAB, LF, VT, FF, CR,
    the four separators FS, GS, RS, US, the space, NEL and the no-break
    space. *)
Definition is_space (c : ascii) : bool :=
  let n := nat_of_ascii c in
  ((9 <=? n) && (n <=? 13)) || ((28 <=? n) && (n <=? 32))
  || (n =? 133) || (n =? 160).

Fixpoint lstrip (s : string) : string :=
  match s with
  | String c s' => if is_space c then lstrip s' else s
  | EmptyString => EmptyString
  end.

Definition rstrip (s : string) : string := String.rev (lstrip (String.rev s)).

(** [s.strip()] *)
Definition strip (s : string) : string := rstrip (lstrip s).

(** Lower case of one code point: the letters A to Z, and the capital
    letters of the Latin-1 block (all of 192 to 222 but the multiplication
    sign). *)
Definition lower_char (c : ascii) : ascii :=
  let n := nat_of_ascii c in
  if ((65 <=? n) && (n <=? 90))
     || ((192 <=? n) && (n <=? 222) && negb (n =? 215))
  then ascii_of_nat (n + 32) else c.

(** [s.lower()] *)
Fixpoint lower (s : string) : string :=
  match s with
  | String c s' => String (lower_char c) (lower s')
  | EmptyString => EmptyString
  end.

(** [s.startswith(c)] for a one-character prefix. *)
Definition startswith_char (c : ascii) (s : string) : bool :=
  match s with
  | String d _ => bool_decide (c = d)
  | EmptyString => false
  end.

Fixpoint lstrip_char (c : ascii) (s : string) : string :=
  match s with
  | String d s' => if bool_decide (c = d) then lstrip_char c s' else s
  | EmptyString => EmptyString
  end.

(** [s.rstrip(c)] for a one-character set. *)
Definition rstrip_char (c : ascii) (s : string) : string :=
  String.rev (lstrip_char c (String.rev s)).

(** [s.replace(c, d)] for one-character arguments. *)
Fixpoint replace_char (c d : ascii) (s : string) : string :=
  match s with
  | String e s' => String (if bool_decide (c = e) then d else e) (replace_char c d s')
  | EmptyString => EmptyString
  end.

(** [sep.join(l)] *)
Fixpoint join (sep : string) (l : list string) : string :=
  match l with
  | [] => ""
  | [s] => s
  | s :: l' => s +:+ sep +:+ join sep l'
  end.

(** Truthiness of a string: [if s:]. *)
Definition truthy (s : string) : bool :=
  match s with EmptyString => false | String _ _ => true end.

(** [l[:k]] for a Python integer [k]: a negative [k] counts from the end,
    and both ends are clamped to the list. *)
Definition slice_to {A} (l : list A) (k : Z) : list A :=
  if (0 <=? k)%Z then take (Z.to_nat k) l
  else take (length l - Z.to_nat (- k)) l.

End PyStr.

(** ** Files and directories *)

(** A CSV row as [csv.reader] yields it and [csv.writer.writerow] takes it. *)
Abbreviation row := (list string).

(** What a file name in a directory denotes: a file whose [open] or
    [csv.reader] raises (it does not decode as UTF-8, say), or a file that
    reads as a list of rows.  Directories hold regular files only. *)
Inductive node :=
  | Unreadable
  | Csv (rows : list row).

Global Instance node_eq_dec : EqDecision node.
Proof. solve_decision. Defined.

Abbreviation directory := (gmap string node).

(** [os.path.isfile(os.path.join(d, name))] *)
Definition isfile (d : directory) (name : string) : bool :=
  match d !! name with
  | Some _ => true
  | None => false
  end.

(** [list(csv.reader(open(path)))]; [None] stands for a raised exception. *)
Definition read_csv (d : directory) (name : string) : option (list row) :=
  match d !! name with
  | Some (Csv rows) => Some rows
  | _ => None
  end.

(** ** The browser page, as the scripts use it *)

(** An element handle: what [get_attribute("href")] returns ([None] when the
    attribute is absent) and what [inner_text()] returns ([None] when it
    raises). *)
Record element := Element {
  href : option string;
  inner_text : option string;
}.

(** The operations of Playwright's [page] object that the scripts call, in
    state-passing style over an abstract browser state.  The failure modes
    are those of the capability the specification lists under its external
    interfaces: a navigation or a wait either completes ([true]) or raises
    [TimeoutError] ([false]); a query returns handles, possibly none. *)
Record Browser := {
  World : Type;
  goto : string → World → World * bool;
  reload : World → World;
  evaluate : string → World → World;
  wait_for_selector : string → World → World * bool;
  query_selector_all : string → World → World * list element;
  query_selector : string → World → World * option element;
}.

(** The page as the detail enricher drives it.  [page.goto] can also fail
    otherwise than by a timeout (a refused connection, a name that does not
    resolve, a malformed URL): Playwright then raises an [Error] that is no
    [TimeoutError].  [goto_raises url w] tells whether the navigation to
    [url] from the state [w] fails in this way; [goto] gives the state the
    navigation leaves in any case. *)
Record WebPage := {
  browser :> Browser;
  goto_raises : string → World browser → bool;
}.

(** ** data-gathering/scrape.py: the link collector *)

Module Collector.

Definition DEFAULT_SELECTOR : string :=
  "div > div:nth-child(1) > div:nth-child(2) > div:nth-child(3) > div:nth-child(1) > div:nth-child(1) > a:nth-child(1)".

Definition SITE : string := "https://www.filmweb.pl".

Definition page_file_name (page_number : Z) : string :=
  "page" +:+ pretty page_number +:+ ".csv".

Definition page_file_rows (page_links : list string) : list row :=
  ["url"] :: map (λ u, [u]) page_links.

(** The nested [save_page_file]: nothing is written for an empty list. *)
Definition save_page_file (files : directory) (page_links : list string)
    (page_number : Z) : directory :=
  match page_links with
  | [] => files
  | _ => <[page_file_name page_number := Csv (page_file_rows page_links)]> files
  end.

(** One iteration of [for el in elements[:10]]. *)
Definition extract_step (page_links : list string) (el : element) : list string :=
  match href el with
  | None => page_links
  | Some h =>
      if negb (PyStr.truthy h) then page_links
      else
        let h := if PyStr.startswith_char "/" h then SITE +:+ h else h in
        page_links ++ [h]
  end.

Definition extract_links (elements : list element) : list string :=
  fold_left extract_step (take 10 elements) [].

(** What one element contributes to the page's link list. *)
Definition link_of (el : element) : option string :=
  match href el with
  | None => None
  | Some h =>
      if PyStr.truthy h
      then Some (if PyStr.startswith_char "/" h then SITE +:+ h else h)
      else None
  end.

Section Run.
Variable B : Browser.
Variables (target_count start_page : Z) (selector : string) (retries : Z).

(** [for i in range(1, 6): page.evaluate(...)] *)
Definition scroll (w : World B) : World B :=
  fold_left
    (λ w (i : Z),
       evaluate B ("window.scrollTo(0, document.body.scrollHeight * "
                   +:+ pretty i +:+ " / 5)") w)
    [1; 2; 3; 4; 5]%Z w.

(** How one pass through the retry loop went: [page.goto] timed out,
    [page.wait_for_selector] timed out, or [page.query_selector_all]
    returned [n] handles.  (The script prints one line for each.) *)
Inductive outcome :=
  | GotoTimeout
  | SelectorTimeout
  | Matches (n : nat).

(** Result of the retry loop of one page: the browser state, the value
    of [elements] when the loop ends, and the passes made, each with the
    value of [attempt] at its [page.goto] and its outcome. *)
Record retry_result := RetryResult {
  rr_world : World B;
  rr_elements : list element;
  rr_attempts : list (Z * outcome);
}.

Definition tick (attempt : Z) (o : outcome) (r : retry_result) : retry_result :=
  {| rr_world := rr_world r;
     rr_elements := rr_elements r;
     rr_attempts := (attempt, o) :: rr_attempts r |}.

(** [while attempt <= retries: ...].  [fuel] bounds the iterations;
    [Z.to_nat (retries + 1 - attempt)] of it is enough for the guard to end
    the loop (lemma [retry_loop_fuel] below). *)
Fixpoint retry_loop (fuel : nat) (url : string) (attempt : Z)
    (elements : list element) (w : World B) : retry_result :=
  match fuel with
  | O => RetryResult w elements []
  | S fuel =>
      if (attempt <=? retries)%Z then
        let '(w, loaded) := goto B url w in
        if negb loaded then
          tick attempt GotoTimeout
            (retry_loop fuel url (attempt + 1) elements (reload B w))
        else
          let w := scroll w in
          let '(w, found) := wait_for_selector B selector w in
          if negb found then
            tick attempt SelectorTimeout (retry_loop fuel url (attempt + 1) [] w)
          else
            let '(w, elements) := query_selector_all B selector w in
            if 10 <=? length elements then
              RetryResult w elements [(attempt, Matches (length elements))]
            else
              tick attempt (Matches (length elements))
                (retry_loop fuel url (attempt + 1) elements (reload B w))
      else RetryResult w elements []
  end.

(** [for u in page_links: if u not in collected: ...]. *)
Fixpoint merge (collected page_links : list string) : list string :=
  match page_links with
  | [] => collected
  | u :: page_links =>
      if bool_decide (u ∈ collected) then merge collected page_links
      else
        let collected := collected ++ [u] in
        if (target_count <=? Z.of_nat (length collected))%Z then collected
        else merge collected page_links
  end.

(** The state the outer loop threads: the browser, [collected], the
    [links/] directory, and the log of the passes of the retry loops, each
    with the page number it was made for. *)
Record state := State {
  world : World B;
  collected : list string;
  files : directory;
  visits : list (Z * (Z * outcome));
}.

Definition listing_url (page_num : Z) : string :=
  "https://www.filmweb.pl/search#/film?page=" +:+ pretty page_num.

Definition run_retry_loop (page_num : Z) (w : World B) : retry_result :=
  retry_loop (Z.to_nat (retries + 1)) (listing_url page_num) 0 [] w.

(** The body of [while len(collected) < target_count] for one page:
    [inl] when the body ends in [break], [inr] when it falls through to
    [page_num += 1]. *)
Definition visit_page (page_num : Z) (st : state) : state + state :=
  let r := run_retry_loop page_num (world st) in
  let visits := visits st ++ map (pair page_num) (rr_attempts r) in
  match rr_elements r with
  | [] => inl (State (rr_world r) (collected st) (files st) visits)
  | elements =>
      let page_links := extract_links elements in
      let files := save_page_file (files st) page_links page_num in
      inr (State (rr_world r) (merge (collected st) page_links) files visits)
  end.

(** The outer loop; [None] when [fuel] pages were not enough. *)
Fixpoint collect_loop (fuel : nat) (page_num : Z) (st : state) : option state :=
  match fuel with
  | O => None
  | S fuel =>
      if (Z.of_nat (length (collected st)) <? target_count)%Z then
        match visit_page page_num st with
        | inl st => Some st
        | inr st => collect_loop fuel (page_num + 1) st
        end
      else Some st
  end.

(** [scrape_filmweb_links]: the returned list and the final state. *)
Definition scrape_filmweb_links (fuel : nat) (w : World B) (links_dir : directory)
    : option (list string * state) :=
  st ← collect_loop fuel start_page (State w [] links_dir []);
  Some (PyStr.slice_to (collected st) target_count, st).

End Run.

End Collector.

(** ** scrape_details.py: the detail enricher *)

Module Enricher.

Definition TITLE_SELECTOR : string := ".filmCoverSection__title ".
Definition GENRE_SELECTOR : string :=
  ".filmPosterSection__buttons > div[data-tag-type=" +:+ String "034" "rankingGenre"
  +:+ String "034" "]".
Definition DESC_SELECTOR : string :=
  "div.descriptionSection__item[data-is-default='true'] p.descriptionSection__text.descriptionSection__text--full".

Definition links_file_name (page_num : Z) : string :=
  "page" +:+ pretty page_num +:+ ".csv".

Definition out_file_name (page_num : Z) : string :=
  "data_page" +:+ pretty page_num +:+ ".csv".

Definition HEADER : row := ["url"; "title"; "genres"; "description"].

(** One iteration of [for r in rows[1:]: if r: links.append(r[0].strip())]. *)
Definition read_links_step (links : list string) (r : row) : list string :=
  match r with
  | [] => links
  | cell :: _ => links ++ [PyStr.strip cell]
  end.

(** [read_links_for_page]; [None] when reading the file raises. *)
Definition read_links_for_page (links_dir : directory) (page_num : Z)
    : option (list string) :=
  if negb (isfile links_dir (links_file_name page_num)) then Some []
  else
    rows ← read_csv links_dir (links_file_name page_num);
    Some (fold_left read_links_step (drop 1 rows) []).

(** [write_page_results]: the file is opened with mode ["w"]. *)
Definition write_page_results (out_dir : directory) (page_num : Z)
    (rows : list row) : directory :=
  <[out_file_name page_num := Csv (HEADER :: rows)]> out_dir.

Definition extract_text_or_empty (el : element) : string :=
  match inner_text el with
  | Some s => PyStr.strip s
  | None => ""
  end.

Definition text_of (el : option element) : string :=
  match el with
  | Some el => extract_text_or_empty el
  | None => ""
  end.

Section Run.
Variable B : WebPage.

(** The body of [for url in links]: the browser afterwards and the row
    appended to [results]; [None] when an exception escapes.  The first
    navigation is guarded by [except PlaywrightTimeoutError] alone, so any
    other error of [page.goto] escapes; the navigation to the description
    page is guarded by [except Exception] as well, so any failure leaves
    the description empty. *)
Definition scrape_link (url : string) (w : World B) : option (World B * row) :=
  if goto_raises B url w then None
  else
    let '(w, loaded) := goto B url w in
    if negb loaded then Some (w, [url; ""; ""; ""])
    else
      let '(w, el) := query_selector B TITLE_SELECTOR w in
      let title := text_of el in
      let '(w, genre_els) := query_selector_all B GENRE_SELECTOR w in
      let genres := map extract_text_or_empty genre_els in
      let genres_str := PyStr.join ";" (filter (λ g, PyStr.truthy g) genres) in
      let desc_url := PyStr.rstrip_char "/" url +:+ "/descs" in
      let raised := goto_raises B desc_url w in
      let '(w, loaded) := goto B desc_url w in
      if raised || negb loaded then Some (w, [url; title; genres_str; ""])
      else
        let '(w, desc_el) := query_selector B DESC_SELECTOR w in
        let desc_text := text_of desc_el in
        let desc_text :=
          PyStr.strip
            (PyStr.replace_char "013" " " (PyStr.replace_char "010" " " desc_text)) in
        Some (w, [url; title; genres_str; desc_text]).

(** [for url in links: ... results.append(...)] *)
Fixpoint scrape_links (links : list string) (results : list row) (w : World B)
    : option (World B * list row) :=
  match links with
  | [] => Some (w, results)
  | url :: links =>
      '(w, r) ← scrape_link url w;
      scrape_links links (results ++ [r]) w
  end.

(** The body of [for page_num in range(start, end + 1)]; [None] when an
    exception escapes: the page file does not read, or a navigation to one
    of its links raises an error that is no timeout, in either case before
    [write_page_results] is reached. *)
Definition scrape_page (links_dir : directory) (page_num : Z)
    (st : World B * directory) : option (World B * directory) :=
  links ← read_links_for_page links_dir page_num;
  match links with
  | [] => Some st
  | _ =>
      '(w, results) ← scrape_links links [] st.1;
      Some (w, write_page_results st.2 page_num results)
  end.

Fixpoint scrape_pages (links_dir : directory) (page_nums : list Z)
    (st : World B * directory) : option (World B * directory) :=
  match page_nums with
  | [] => Some st
  | page_num :: page_nums =>
      st ← scrape_page links_dir page_num st;
      scrape_pages links_dir page_nums st
  end.

(** [scrape_range(start, end)] on the [links/] directory, from a browser
    state and a [text-data/] directory. *)
Definition scrape_range (links_dir : directory) (start end_ : Z)
    (st : World B * directory) : option (World B * directory) :=
  scrape_pages links_dir (seqZ start (end_ + 1 - start)) st.

End Run.


(** [r] is a row that the body of the loop over the links appends for
    [url], from some state of the browser. *)
Definition row_for (B : WebPage) (url : string) (r : row) : Prop :=
  ∃ w w', scrape_link B url w = Some (w', r).

(** Number of data rows of a page result file, when it reads. *)
Definition data_row_count (out_dir : directory) (page_num : Z) : option nat :=
  rows ← read_csv out_dir (out_file_name page_num);
  Some (length (drop 1 rows)).

End Enricher.

(** ** refill_missing.py: the gap finder *)

Module GapFinder.

Definition MISSING_TITLE : string := "__MISSING_TITLE__".
Definition MISSING_DESC : string := "__MISSING_DESCRIPTION__".

Definition is_digit (c : ascii) : bool :=
  let n := nat_of_ascii c in (48 <=? n) && (n <=? 57).

Definition digit_value (c : ascii) : Z := Z.of_nat (nat_of_ascii c) - 48.

Fixpoint strip_prefix (p s : string) : option string :=
  match p, s with
  | EmptyString, _ => Some s
  | String c p, String d s => if bool_decide (c = d) then strip_prefix p s else None
  | String _ _, EmptyString => None
  end.

(** The longest run of digits a string starts with, and what follows it. *)
Fixpoint span_digits (s : string) : string * string :=
  match s with
  | String c s' =>
      if is_digit c then let '(ds, rest) := span_digits s' in (String c ds, rest)
      else (EmptyString, s)
  | EmptyString => (EmptyString, EmptyString)
  end.

(** [int] of a digit string given last digit first. *)
Fixpoint int_of_rev_digits (ds : string) : Z :=
  match ds with
  | String c ds => digit_value c + 10 * int_of_rev_digits ds
  | EmptyString => 0
  end.

(** [m = PAGE_RE.search(name); int(m.group(1))] for
    [PAGE_RE = data_page(\d+)\.csv$].  The pattern is anchored at the end of
    the name ([$] also matches before one final line feed), so the match is
    read off the reversed name: [.csv], then the whole run of digits, then
    [data_page]. *)
Definition page_of_name (name : string) : option Z :=
  let rname := String.rev name in
  let rname := match rname with
               | String "010" rest => rest
               | _ => rname
               end in
  rest ← strip_prefix "vsc." rname;
  let '(ds, rest) := span_digits rest in
  match ds with
  | EmptyString => None
  | _ => _ ← strip_prefix "egap_atad" rest; Some (int_of_rev_digits ds)
  end.

(** [{h.strip().lower(): i for i, h in enumerate(header)}] *)
Definition idx_map (header : row) : gmap string nat :=
  fold_left (λ m ih, <[PyStr.lower (PyStr.strip ih.2) := ih.1]> m)
            (imap pair header) ∅.

(** [r[i]]: [None] stands for [IndexError]. *)
Definition index (r : row) (i : nat) : option string := r !! i.

(** [r[i].strip() if i < len(r) else ""] *)
Definition field (r : row) (i : nat) : option string :=
  if bool_decide (i < length r) then PyStr.strip <$> index r i else Some "".

(** The test of the [if] in the row loop. *)
Definition row_has_missing (ti gi di : nat) (r : row) : option bool :=
  title ← field r ti;
  genres ← field r gi;
  desc ← field r di;
  Some (negb (PyStr.truthy title) || negb (PyStr.truthy genres)
        || negb (PyStr.truthy desc)
        || bool_decide (title = MISSING_TITLE)
        || bool_decide (desc = MISSING_DESC)).

(** [for r in rows[1:]: ... pages.add(page_num); break] *)
Fixpoint rows_have_missing (ti gi di : nat) (data : list row) : option bool :=
  match data with
  | [] => Some false
  | r :: data =>
      b ← row_has_missing ti gi di r;
      if b : bool then Some true else rows_have_missing ti gi di data
  end.

(** Whether the loop body adds the page number of a file; [None] when an
    exception escapes the body. *)
Definition file_has_missing (nd : node) : option bool :=
  match nd with
  | Unreadable => Some true
  | Csv rows =>
      if bool_decide (length rows < 2) then Some true
      else
        match rows with
        | [] => Some true
        | header :: data =>
            let m := idx_map header in
            match m !! "title", m !! "genres", m !! "description" with
            | Some ti, Some gi, Some di => rows_have_missing ti gi di data
            | _, _, _ => Some true
            end
        end
  end.

(** The body of [for name in os.listdir(out_dir)]. *)
Definition scan_entry (pages : gset Z) (entry : string * node) : option (gset Z) :=
  match page_of_name entry.1 with
  | None => Some pages
  | Some page_num =>
      b ← file_has_missing entry.2;
      Some (if b : bool then {[page_num]} ∪ pages else pages)
  end.

Fixpoint scan_entries (pages : gset Z) (entries : list (string * node))
    : option (gset Z) :=
  match entries with
  | [] => Some pages
  | entry :: entries =>
      pages ← scan_entry pages entry;
      scan_entries pages entries
  end.

(** [find_pages_with_missing]; the argument is [None] when [out_dir] is not
    a directory, the result is [None] when an exception escapes. *)
Definition find_pages_with_missing (out_dir : option directory) : option (gset Z) :=
  match out_dir with
  | None => Some ∅
  | Some d => scan_entries ∅ (map_to_list d)
  end.

(** [sorted(pages)] *)
Definition sorted_pages (pages : gset Z) : list Z :=
  merge_sort Z.le (elements pages).

(** The command line [run_scrape_for_pages] builds for one page. *)
Definition scrape_cmd (executable script : string) (headed : bool)
    (link_retries : Z) (link_retry_wait : string) (pnum : Z) : list string :=
  [executable; script; "--start"; pretty pnum; "--end"; pretty pnum;
   "--link-retries"; pretty link_retries; "--link-retry-wait"; link_retry_wait]
  ++ (if headed then ["--headed"] else []).

(** [run_scrape_for_pages], as the list of command lines it hands to
    [subprocess.run], in order.  [link_retry_wait] is the float argument
    already formatted by [str]. *)
Definition run_scrape_for_pages (executable : string) (pages : gset Z)
    (script : string) (headed : bool) (link_retries : Z)
    (link_retry_wait : string) : list (list string) :=
  map (scrape_cmd executable script headed link_retries link_retry_wait)
      (sorted_pages pages).

(** What [main] does: the pages it reports and the command lines it runs.
    The call of [run_scrape_for_pages] is commented out in [main]. *)
Record main_result := MainResult {
  reported : list Z;
  spawned : list (list string);
}.

Definition main (executable : string) (out_dir : option directory)
    (script : string) (headed : bool) (link_retries : Z)
    (link_retry_wait : string) : option main_result :=
  pages ← find_pages_with_missing out_dir;
  Some (MainResult (sorted_pages pages) []).

End GapFinder.

(** *** What the gap finder is meant to flag

    The words of the description of the gap finder, as predicates on a page
    result file, to be compared with [file_has_missing]. *)

Module GapSpec.

(** The column names of a header, trimmed and in lower case. *)
Definition column_names (header : row) : list string :=
  (λ h, PyStr.lower (PyStr.strip h)) <$> header.

(** [i] is the position of the column named [c]: the last one, when
    several columns bear the name. *)
Definition is_column (header : row) (c : string) (i : nat) : Prop :=
  column_names header !! i = Some c
  ∧ ∀ j, i < j → column_names header !! j ≠ Some c.

(** The trimmed cell of a row at a position; empty when the row is too
    short to have it. *)
Definition cell_text (r : row) (i : nat) : string :=
  default "" (PyStr.strip <$> r !! i).

(** A row with a missing field: title, genres or description empty, the
    title equal to the title marker, or the description equal to the
    description marker. *)
Definition row_incomplete (ti gi di : nat) (r : row) : Prop :=
  cell_text r ti = "" ∨ cell_text r gi = "" ∨ cell_text r di = ""
  ∨ cell_text r ti = GapFinder.MISSING_TITLE
  ∨ cell_text r di = GapFinder.MISSING_DESC.

(** The reading of the last clause in which any of the three fields may
    equal either marker. *)
Definition row_incomplete_any_marker (ti gi di : nat) (r : row) : Prop :=
  cell_text r ti = "" ∨ cell_text r gi = "" ∨ cell_text r di = ""
  ∨ ∃ i, i ∈ [ti; gi; di]
       ∧ (cell_text r i = GapFinder.MISSING_TITLE
          ∨ cell_text r i = GapFinder.MISSING_DESC).

(** A page result file that needs another run, for a given test of its
    data rows: it does not read, or has fewer than two rows, or its header
    lacks one of the three columns, or some data row fails the test. *)
Definition incomplete_for (bad_row : nat → nat → nat → row → Prop)
    (nd : node) : Prop :=
  match nd with
  | Unreadable => True
  | Csv rows =>
      length rows < 2
      ∨ ∃ header data, rows = header :: data
          ∧ ("title" ∉ column_names header
             ∨ "genres" ∉ column_names header
             ∨ "description" ∉ column_names header
             ∨ ∃ ti gi di r,
                 is_column header "title" ti
                 ∧ is_column header "genres" gi
                 ∧ is_column header "description" di
                 ∧ r ∈ data ∧ bad_row ti gi di r)
  end.

Definition incomplete : node → Prop := incomplete_for row_incomplete.

Definition incomplete_any_marker : node → Prop :=
  incomplete_for row_incomplete_any_marker.

End GapSpec.

(** ** verify_links.py: the completeness verifier *)

Module Verifier.

Definition EXPECTED_COUNT : Z := 1000.
Definition EXPECTED_ROWS_PER_FILE : nat := 10.

Definition fname (i : Z) : string := "page" +:+ pretty i +:+ ".csv".

(** [range(1, EXPECTED_COUNT + 1)] *)
Definition expected_pages : list Z := seqZ 1 (EXPECTED_COUNT + 1 - 1).

(** The first loop: the names of the expected files that are absent. *)
Definition missing_step (d : directory) (missing : list string) (i : Z)
    : list string :=
  if negb (isfile d (fname i)) then missing ++ [fname i] else missing.

Definition find_missing (d : directory) : list string :=
  fold_left (missing_step d) expected_pages [].

Record report := Report {
  short_files : list (string * nat);
  bad_header : list string;
  problems : list string;
}.

(** [not header or header[0].strip().lower() != 'url'] *)
Definition header_is_bad (header : row) : bool :=
  match header with
  | [] => true
  | h :: _ => negb (bool_decide (PyStr.lower (PyStr.strip h) = "url"))
  end.

(** [r and any(cell.strip() for cell in r)] *)
Definition row_is_data (r : row) : bool :=
  match r with
  | [] => false
  | _ => existsb (λ cell, PyStr.truthy (PyStr.strip cell)) r
  end.

(** The body of the second loop. *)
Definition inspect_step (d : directory) (rep : report) (i : Z) : report :=
  if negb (isfile d (fname i)) then rep
  else
    match read_csv d (fname i) with
    | None => Report (short_files rep) (bad_header rep) (problems rep ++ [fname i])
    | Some [] => Report (short_files rep ++ [(fname i, 0)]) (bad_header rep) (problems rep)
    | Some (header :: data_rows) =>
        let bad := if header_is_bad header then bad_header rep ++ [fname i]
                   else bad_header rep in
        let data_count := length (filter (λ r, row_is_data r) data_rows) in
        let short := if data_count <? EXPECTED_ROWS_PER_FILE
                     then short_files rep ++ [(fname i, data_count)]
                     else short_files rep in
        Report short bad (problems rep)
    end.

Definition inspect (d : directory) : report :=
  fold_left (inspect_step d) expected_pages (Report [] [] []).

Definition nonempty {A} (l : list A) : bool :=
  match l with [] => false | _ => true end.

(** [verify], as the exit status [main] passes to [sys.exit]; the argument
    is [None] when [LINKS_DIR] is not a directory. *)
Definition verify (links_dir : option directory) : Z :=
  match links_dir with
  | None => 2
  | Some d =>
      let missing := find_missing d in
      let rep := inspect d in
      if nonempty missing || nonempty (bad_header rep)
         || nonempty (short_files rep) || nonempty (problems rep)
      then 1 else 0
  end.

End Verifier.

(** *** What the verifier reports

    The four kinds of problem an expected page file can have. *)

Module VerifierSpec.
Import Verifier.

(** The page numbers whose files are expected. *)
Definition expected (i : Z) : Prop := (1 ≤ i ≤ EXPECTED_COUNT)%Z.

(** The number of non-blank data rows. *)
Definition data_count (data_rows : list row) : nat :=
  length (filter (λ r, row_is_data r) data_rows).

Definition is_missing (d : directory) (i : Z) : Prop :=
  d !! fname i = None.

Definition is_unreadable (d : directory) (i : Z) : Prop :=
  d !! fname i = Some Unreadable.

Definition has_bad_header (d : directory) (i : Z) : Prop :=
  ∃ header data_rows,
    d !! fname i = Some (Csv (header :: data_rows))
    ∧ header_is_bad header = true.

Definition is_short (d : directory) (i : Z) : Prop :=
  d !! fname i = Some (Csv [])
  ∨ ∃ header data_rows,
      d !! fname i = Some (Csv (header :: data_rows))
      ∧ data_count data_rows < EXPECTED_ROWS_PER_FILE.

End VerifierSpec.

(** ** Concrete browsers and directories

    A static site: a navigation to [url] completes when [up url] holds, and
    a query on the page at [url] returns [dom url selector]. *)

Module Sites.

Definition static_site (up : string → bool)
    (dom : string → string → list element) : Browser :=
  {| World := string;
     goto url _ := (url, up url);
     reload w := w;
     evaluate _ w := w;
     wait_for_selector sel w := (w, Verifier.nonempty (dom w sel));
     query_selector_all sel w := (w, dom w sel);
     query_selector sel w := (w, head (dom w sel)) |}.

(** A site on which no selector matches anything. *)
Definition blank_site : Browser := static_site (λ _, true) (λ _ _, []).

(** Ten anchors of listing page [p], with root-relative hrefs. *)
Definition anchors (p : Z) : list element :=
  map (λ i, Element (Some ("/film/" +:+ pretty p +:+ "-" +:+ pretty i)) None)
      (seqZ 0 10).

(** A listing with ten fresh links on each of the pages 1, 2 and 3. *)
Definition three_pages : Browser :=
  static_site (λ _, true)
    (λ url _,
       if bool_decide (url = Collector.listing_url 1) then anchors 1
       else if bool_decide (url = Collector.listing_url 2) then anchors 2
       else if bool_decide (url = Collector.listing_url 3) then anchors 3
       else []).

(** A listing whose page 1 holds a single anchor without an href. *)
Definition bare_anchor : Browser :=
  static_site (λ _, true)
    (λ url _,
       if bool_decide (url = Collector.listing_url 1) then [Element None None]
       else []).

(** Two film pages: the first never loads; the second loads, shows a title
    and three genre tags (one of which cannot be read), and its description
    page never loads. *)
Definition film_a : string := "https://www.filmweb.pl/film/Ida-2013".
Definition film_b : string := "https://www.filmweb.pl/film/Rejs-1970/".

Definition two_films_site : Browser :=
  static_site (λ url, bool_decide (url = film_b))
    (λ url sel,
       if bool_decide (url = film_b) then
         if bool_decide (sel = Enricher.TITLE_SELECTOR)
         then [Element None (Some " Rejs ")]
         else if bool_decide (sel = Enricher.GENRE_SELECTOR)
         then [Element None (Some "Komedia"); Element None None;
               Element None (Some "Satyra ")]
         else []
       else []).

(** The two films on a page whose navigations fail by timeout only. *)
Definition two_films : WebPage :=
  {| browser := two_films_site; goto_raises _ _ := false |}.

(** The two films on a page that is refused the connection to the first
    film: [page.goto] raises an error that is no timeout. *)
Definition first_film_refused : WebPage :=
  {| browser := two_films_site;
     goto_raises url _ := bool_decide (url = film_a) |}.

(** A [links/] directory whose [page1.csv] lists the two films. *)
Definition two_film_links : directory :=
  {[ "page1.csv" := Csv [["url"]; [film_a]; []; [" " +:+ film_b]] ]}.

(** A [text-data/] directory with a result file for page 1 from an earlier
    run, holding one record. *)
Definition stale_results : directory :=
  {[ "data_page1.csv" :=
       Csv [Enricher.HEADER; [film_a; "Ida"; "Dramat"; "Anna, a novice."]] ]}.

(** A [text-data/] directory whose page 1 has a record with an empty
    title. *)
Definition blank_title : directory :=
  {[ "data_page1.csv" :=
       Csv [Enricher.HEADER;
            ["url1"; "Movie A"; "Drama"; "A description"];
            ["url2"; ""; "Comedy"; "desc"]] ]}.

(** A page result file in which the title cell holds the marker of a
    missing description, and the directory that holds it as page 1. *)
Definition misplaced_marker_file : node :=
  Csv [Enricher.HEADER; ["url1"; "__MISSING_DESCRIPTION__"; "Drama"; "A description"]].

Definition misplaced_marker : directory :=
  {[ "data_page1.csv" := misplaced_marker_file ]}.

(** A page result file whose only data row stops after the title. *)
Definition short_row_file : node :=
  Csv [Enricher.HEADER; ["url1"; "Movie A"]].

(** A page file with the header and ten links. *)
Definition full_page_file : node :=
  Csv (["url"] :: map (λ i, ["https://www.filmweb.pl/film/" +:+ pretty i])
                      (seqZ 0 10)).

(** A [links/] directory with all the expected page files, each with ten
    links. *)
Definition full_links : directory :=
  list_to_map (map (λ i, (Verifier.fname i, full_page_file))
                   Verifier.expected_pages).

(** The same, except that [page1.csv] does not read. *)
Definition links_one_unreadable : directory :=
  <[Verifier.fname 1 := Unreadable]> full_links.

(** A [links/] directory that holds [page1.csv] and nothing else. *)
Definition only_page_one : directory := {[ "page1.csv" := full_page_file ]}.

(** A [links/] directory whose [page1.csv] does not read and whose
    [page2.csv] lists the second film. *)
Definition unreadable_then_film : directory :=
  {[ "page1.csv" := Unreadable; "page2.csv" := Csv [["url"]; [film_b]] ]}.

(** A [text-data/] directory whose page 1 has a record that stops after
    the title. *)
Definition short_row : directory := {[ "data_page1.csv" := short_row_file ]}.

End Sites.

(** ** data-gathering/scrape.py: the rest of the script *)

Module CollectorMain.
Import Collector.

(** [save_to_csv]: the header and one row per link, whatever the list. *)
Definition save_to_csv (files : directory) (links : list string)
    (name : string) : directory :=
  <[name := Csv (page_file_rows links)]> files.

Fixpoint until_slash (s : string) : string :=
  match s with
  | String c s' => if bool_decide (c = "/"%char) then "" else String c (until_slash s')
  | EmptyString => EmptyString
  end.

(** [os.path.basename]: what follows the last slash. *)
Definition basename (path : string) : string :=
  String.rev (until_slash (String.rev path)).

(** Whether [links/<base_name>] names a directory rather than a file:
    [links/] itself for an empty base name or a dot, its parent for two
    dots.  [links/] holds regular files only, and every other base name is
    taken to be one under which the file system lets a file be opened. *)
Definition names_directory (base_name : string) : bool :=
  bool_decide (base_name = "") || bool_decide (base_name = ".")
  || bool_decide (base_name = "..").

(** How [main] ends: normally, with the [links/] directory as it leaves it,
    or with the exception [open] raises for a path that names a directory
    (an output path that ends in a slash, in [/.] or in [/..], or that is
    one or two dots). *)
Inductive ending :=
  | Done (files : directory)
  | Raised.

(** [main], from the parsed arguments; [None] when [fuel] pages were not
    enough for the collector to return. *)
Definition main (B : Browser) (count start_page : Z) (output selector : string)
    (retries : Z) (fuel : nat) (w : World B) (links_dir : directory)
    : option ending :=
  '(links, st) ← scrape_filmweb_links B count start_page selector retries
                   fuel w links_dir;
  match links with
  | [] => Some (Done (files B st))
  | _ =>
      if PyStr.truthy output then
        let base_name := basename output in
        if names_directory base_name then Some Raised
        else Some (Done (save_to_csv (files B st) links base_name))
      else Some (Done (files B st))
  end.

End CollectorMain.

(** * Properties *)

(** ** Python string and list helpers *)

Module PyStrFacts.

Lemma slice_to_length {A} (l : list A) (k : Z) :
  (0 ≤ k)%Z → (Z.of_nat (length (PyStr.slice_to l k)) ≤ k)%Z.
Proof.
  intros Hk. unfold PyStr.slice_to.
  destruct (Z.leb_spec 0 k); [|lia]. rewrite length_take. lia.
Qed.

Lemma slice_to_nil {A} (k : Z) : PyStr.slice_to (@nil A) k = [].
Proof. unfold PyStr.slice_to. by destruct (0 <=? k)%Z; rewrite take_nil. Qed.

Lemma slice_to_NoDup {A} (l : list A) (k : Z) : NoDup l → NoDup (PyStr.slice_to l k).
Proof.
  intros Hl. unfold PyStr.slice_to.
  destruct (0 <=? k)%Z; eapply sublist_NoDup; eauto using sublist_take.
Qed.

Lemma omap_length_le {A C} (f : A → option C) (l : list A) :
  length (omap f l) ≤ length l.
Proof. induction l as [|x l IH]; csimpl; [done|]. destruct (f x); simpl; lia. Qed.

Lemma app_inj_r (s1 s2 t : string) : s1 +:+ t = s2 +:+ t → s1 = s2.
Proof.
  assert (Hlen : ∀ a b, String.length (a +:+ b) = String.length a + String.length b).
  { intros a b. induction a as [|c a IH]; [done|].
    change (S (String.length (a +:+ b)) = S (String.length a) + String.length b).
    by rewrite IH. }
  revert s2. induction s1 as [|c s1 IH]; intros [|d s2] H; simpl in *; try done.
  - apply (f_equal String.length) in H. rewrite !Hlen in H. simpl in H. lia.
  - apply (f_equal String.length) in H. rewrite !Hlen in H. simpl in H. lia.
  - change (String c (s1 +:+ t) = String d (s2 +:+ t)) in H.
    injection H as -> H. f_equal. by apply IH.
Qed.

End PyStrFacts.

(** ** The link collector *)

Module CollectorFacts.
Import Collector.

Lemma fold_extract_step (els : list element) (acc : list string) :
  fold_left extract_step els acc = acc ++ omap link_of els.
Proof.
  revert acc. induction els as [|el els IH]; intros acc; simpl.
  - by rewrite app_nil_r.
  - rewrite IH. unfold extract_step, link_of.
    destruct (href el) as [h|]; [|done].
    destruct (PyStr.truthy h); simpl; [|done].
    by rewrite <- app_assoc.
Qed.

Lemma extract_links_omap (els : list element) :
  extract_links els = omap link_of (take 10 els).
Proof. unfold extract_links. by rewrite fold_extract_step. Qed.

Lemma extract_links_length (els : list element) : length (extract_links els) ≤ 10.
Proof.
  rewrite extract_links_omap.
  etrans; [apply PyStrFacts.omap_length_le|]. rewrite length_take. lia.
Qed.

Lemma page_file_name_inj : Inj (=) (=) page_file_name.
Proof.
  intros p q H. unfold page_file_name in H.
  apply (inj (String.app "page")) in H.
  apply PyStrFacts.app_inj_r in H. by apply (inj pretty) in H.
Qed.

Section Run.
Variable B : Browser.
Variables (target_count start_page : Z) (selector : string) (retries : Z).

Abbreviation retry_loop := (retry_loop B selector retries).
Abbreviation run_retry_loop := (run_retry_loop B selector retries).
Abbreviation merge := (merge target_count).
Abbreviation visit_page := (visit_page B target_count selector retries).
Abbreviation collect_loop := (collect_loop B target_count selector retries).

(** *** The retry loop *)

Lemma retry_loop_attempts_bound fuel url attempt elements w :
  length (rr_attempts B (retry_loop fuel url attempt elements w))
  ≤ Z.to_nat (retries + 1 - attempt).
Proof.
  revert attempt elements w.
  induction fuel as [|fuel IH]; intros attempt elements w;
    cbn [Collector.retry_loop]; [cbn [rr_attempts length]; lia|].
  destruct (Z.leb_spec attempt retries) as [Hle|Hgt];
    [|cbn [rr_attempts length]; lia].
  assert (Hstep : ∀ o els w',
    length (rr_attempts B (tick B attempt o (retry_loop fuel url (attempt + 1) els w')))
    ≤ Z.to_nat (retries + 1 - attempt)).
  { intros o els w'. specialize (IH (attempt + 1)%Z els w').
    cbn [tick rr_attempts length]. lia. }
  destruct (goto B url w) as [w1 [|]]; cbn [negb]; [|apply Hstep].
  destruct (wait_for_selector B selector (scroll B w1)) as [w2 [|]]; cbn [negb];
    [|apply Hstep].
  destruct (query_selector_all B selector w2) as [w3 els].
  destruct (10 <=? length els); [cbn [rr_attempts length]; lia | apply Hstep].
Qed.

(** More fuel than the guard allows iterations changes nothing. *)
Lemma retry_loop_fuel fuel url attempt elements w :
  Z.to_nat (retries + 1 - attempt) ≤ fuel →
  retry_loop fuel url attempt elements w
  = retry_loop (Z.to_nat (retries + 1 - attempt)) url attempt elements w.
Proof.
  revert attempt elements w.
  induction fuel as [|fuel IH]; intros attempt elements w Hfuel.
  { by replace (Z.to_nat (retries + 1 - attempt)) with 0 by lia. }
  destruct (Z.leb_spec attempt retries) as [Hle|Hgt].
  - replace (Z.to_nat (retries + 1 - attempt))
      with (S (Z.to_nat (retries + 1 - (attempt + 1)))) by lia.
    cbn [Collector.retry_loop]. destruct (attempt <=? retries)%Z; [|done].
    assert (Hrec : ∀ els w',
      retry_loop fuel url (attempt + 1) els w'
      = retry_loop (Z.to_nat (retries + 1 - (attempt + 1))) url (attempt + 1) els w').
    { intros. apply IH. lia. }
    destruct (goto B url w) as [w1 [|]]; cbn [negb]; [|by rewrite Hrec].
    destruct (wait_for_selector B selector (scroll B w1)) as [w2 [|]]; cbn [negb];
      [|by rewrite Hrec].
    destruct (query_selector_all B selector w2) as [w3 els].
    destruct (10 <=? length els); [done | by rewrite Hrec].
  - replace (Z.to_nat (retries + 1 - attempt)) with 0 by lia.
    cbn [Collector.retry_loop]. destruct (Z.leb_spec attempt retries); [lia | done].
Qed.

(** A pass that finds ten or more handles is the last one, and its
    handles are the loop's result. *)
Lemma retry_loop_stops_at_ten fuel url attempt elements w l1 a n l2 :
  rr_attempts B (retry_loop fuel url attempt elements w) = l1 ++ (a, Matches n) :: l2 →
  10 ≤ n →
  l2 = [] ∧ length (rr_elements B (retry_loop fuel url attempt elements w)) = n.
Proof.
  revert attempt elements w l1.
  induction fuel as [|fuel IH]; intros attempt elements w l1;
    cbn [Collector.retry_loop].
  { cbn [rr_attempts]. intros H. by destruct l1. }
  destruct (attempt <=? retries)%Z;
    [|cbn [rr_attempts]; intros H; by destruct l1].
  assert (Hrec : ∀ o els w',
    (∀ m, o = Matches m → m < 10) →
    rr_attempts B (tick B attempt o (retry_loop fuel url (attempt + 1) els w'))
      = l1 ++ (a, Matches n) :: l2 →
    10 ≤ n →
    l2 = [] ∧ length (rr_elements B
                 (tick B attempt o (retry_loop fuel url (attempt + 1) els w'))) = n).
  { intros o els w' Ho H Hn. cbn [tick rr_attempts rr_elements] in *.
    destruct l1 as [|x l1]; simpl in H.
    - injection H as _ Ho' _. specialize (Ho n Ho'). lia.
    - injection H as _ H'. eapply IH; eauto. }
  destruct (goto B url w) as [w1 [|]]; cbn [negb]; [|by apply Hrec].
  destruct (wait_for_selector B selector (scroll B w1)) as [w2 [|]]; cbn [negb];
    [|by apply Hrec].
  destruct (query_selector_all B selector w2) as [w3 els].
  destruct (Nat.leb_spec 10 (length els)) as [Hten|Hten].
  - cbn [rr_attempts rr_elements]. intros H Hn.
    destruct l1 as [|x [|y l1]]; simpl in H; [|done..].
    by injection H as _ <- <-.
  - apply Hrec. intros m [= <-]. lia.
Qed.

(** The passes are numbered consecutively from the starting attempt. *)
Lemma retry_loop_attempt_numbers fuel url attempt elements w :
  (rr_attempts B (retry_loop fuel url attempt elements w)).*1
  = seqZ attempt
      (Z.of_nat (length (rr_attempts B (retry_loop fuel url attempt elements w)))).
Proof.
  revert attempt elements w.
  induction fuel as [|fuel IH]; intros attempt elements w;
    cbn [Collector.retry_loop]; [done|].
  destruct (attempt <=? retries)%Z; [|done].
  assert (Hrec : ∀ o els w',
    (rr_attempts B (tick B attempt o (retry_loop fuel url (attempt + 1) els w'))).*1
    = seqZ attempt
        (Z.of_nat (length (rr_attempts B
           (tick B attempt o (retry_loop fuel url (attempt + 1) els w')))))).
  { intros o els w'. cbn [tick rr_attempts length fmap list_fmap fst].
    rewrite (IH (attempt + 1)%Z els w'), Nat2Z.inj_succ.
    by rewrite (seqZ_cons attempt) by lia; rewrite Z.pred_succ. }
  destruct (goto B url w) as [w1 [|]]; cbn [negb]; [|by apply Hrec].
  destruct (wait_for_selector B selector (scroll B w1)) as [w2 [|]]; cbn [negb];
    [|by apply Hrec].
  destruct (query_selector_all B selector w2) as [w3 els].
  destruct (10 <=? length els); [done | by apply Hrec].
Qed.

(** *** Merging into [collected] *)

Lemma merge_NoDup (collected page_links : list string) :
  NoDup collected → NoDup (merge collected page_links).
Proof.
  revert collected.
  induction page_links as [|u page_links IH]; intros collected Hnd; simpl; [done|].
  case_bool_decide as Hin; [by apply IH|].
  assert (NoDup (collected ++ [u])).
  { apply NoDup_app. split; [done|]. split; [|apply NoDup_singleton].
    intros x Hx ->%list_elem_of_singleton. done. }
  destruct (target_count <=? _)%Z; [done | by apply IH].
Qed.

Lemma visit_page_NoDup page_num st st' :
  NoDup (collected B st) →
  visit_page page_num st = inl st' ∨ visit_page page_num st = inr st' →
  NoDup (collected B st').
Proof.
  intros Hnd. unfold visit_page.
  destruct (rr_elements B _) as [|el els]; intros [[= <-]|[= <-]]; simpl; [done|].
  by apply merge_NoDup.
Qed.

Lemma collect_loop_NoDup fuel page_num st st' :
  NoDup (collected B st) →
  collect_loop fuel page_num st = Some st' →
  NoDup (collected B st').
Proof.
  revert page_num st.
  induction fuel as [|fuel IH]; intros page_num st Hnd; simpl; [done|].
  destruct (_ <? _)%Z; [|by intros [= <-]].
  destruct (visit_page page_num st) as [st1|st1] eqn:Hv.
  - intros [= <-]. eapply visit_page_NoDup; eauto.
  - apply IH. eapply visit_page_NoDup; eauto.
Qed.

(** With nothing to collect the outer loop does not run at all. *)
Lemma collect_loop_nothing_to_do fuel page_num st st' :
  (target_count ≤ Z.of_nat (length (collected B st)))%Z →
  collect_loop fuel page_num st = Some st' → st' = st.
Proof.
  intros Hle. destruct fuel as [|fuel]; simpl; [done|].
  destruct (Z.ltb_spec (Z.of_nat (length (collected B st))) target_count); [lia|].
  by intros [= <-].
Qed.

(** The result does not depend on the fuel, once there is enough of it. *)
Lemma collect_loop_fuel_mono fuel fuel' page_num st st' :
  collect_loop fuel page_num st = Some st' → fuel ≤ fuel' →
  collect_loop fuel' page_num st = Some st'.
Proof.
  revert fuel' page_num st.
  induction fuel as [|fuel IH]; intros fuel' page_num st; simpl; [done|].
  intros H Hle. destruct fuel' as [|fuel']; [lia|]. simpl.
  destruct (_ <? _)%Z; [|done].
  destruct (visit_page page_num st); [done|]. apply IH; [done | lia].
Qed.

(** *** Page files *)



End Run.

End CollectorFacts.

Module CollectorClaims.
Import Collector CollectorFacts.

(** C4.  The page's link list is read off the first ten matched elements
    in their order: an element without an href contributes nothing, an href
    that starts with a slash contributes the site's scheme and host followed
    by the href, and any other non-empty href (an absolute one in
    particular) contributes itself unchanged. *)
Theorem extract_links_first_ten_in_order (elements : list element) :
  extract_links elements = omap link_of (take 10 elements)
  ∧ length (extract_links elements) ≤ 10
  ∧ (∀ el, href el = None → link_of el = None)
  ∧ (∀ el h, href el = Some (String "/" h) →
       link_of el = Some ("https://www.filmweb.pl" +:+ String "/" h))
  ∧ (∀ el h, href el = Some h → h ≠ "" → PyStr.startswith_char "/" h = false →
       link_of el = Some h).
Proof.
  split; [apply extract_links_omap|].
  split; [apply extract_links_length|].
  unfold link_of. repeat split.
  - by intros el ->.
  - by intros el h ->.
  - intros el h -> Hne Hsl. rewrite Hsl. by destruct h.
Qed.

Lemma extract_links_first_ten_in_order_witness :
  extract_links
    [Element (Some "/film/Ida-2013") None; Element None (Some "x");
     Element (Some "https://www.filmweb.pl/film/Rejs-1970") None]
  = ["https://www.filmweb.pl/film/Ida-2013"; "https://www.filmweb.pl/film/Rejs-1970"].
Proof.
  destruct (extract_links_first_ten_in_order
    [Element (Some "/film/Ida-2013") None; Element None (Some "x");
     Element (Some "https://www.filmweb.pl/film/Rejs-1970") None])
    as (Heq & _ & Hnone & Hrel & Habs).
  rewrite Heq. cbn [take omap list_omap].
  rewrite (Hrel (Element (Some "/film/Ida-2013") None) "film/Ida-2013" eq_refl).
  rewrite (Hnone (Element None (Some "x")) eq_refl).
  rewrite (Habs (Element (Some "https://www.filmweb.pl/film/Rejs-1970") None)
             "https://www.filmweb.pl/film/Rejs-1970" eq_refl);
    [reflexivity | discriminate | reflexivity].
Defined.

(** C1 (as amended).  The list a completed run returns has no two equal
    URLs; its length is at most [target_count] whenever [target_count] is
    not negative, and it is empty when [target_count] is negative. *)
Theorem scrape_result_unique_and_capped (B : Browser)
    (target_count start_page : Z) (selector : string) (retries : Z)
    (fuel : nat) (w : World B) (links_dir : directory)
    (links : list string) (st : state B) :
  scrape_filmweb_links B target_count start_page selector retries fuel w links_dir
    = Some (links, st) →
  NoDup links
  ∧ (0 ≤ target_count → Z.of_nat (length links) ≤ target_count)%Z
  ∧ (target_count < 0 → links = [])%Z.
Proof.
  unfold scrape_filmweb_links.
  destruct (collect_loop _ _ _ _ _ _ _) as [st'|] eqn:Hloop; [|done].
  intros [= <- <-]. repeat split.
  - apply PyStrFacts.slice_to_NoDup.
    eapply collect_loop_NoDup; [|exact Hloop]. apply NoDup_nil_2.
  - apply PyStrFacts.slice_to_length.
  - intros Hneg. apply collect_loop_nothing_to_do in Hloop; [|simpl; lia].
    subst st'. apply PyStrFacts.slice_to_nil.
Qed.

Lemma scrape_result_unique_and_capped_witness :
  ∃ links st,
    scrape_filmweb_links Sites.three_pages 25 1 DEFAULT_SELECTOR 3 10 "" ∅
      = Some (links, st)
    ∧ NoDup links ∧ (Z.of_nat (length links) ≤ 25)%Z.
Proof.
  destruct (scrape_filmweb_links Sites.three_pages 25 1 DEFAULT_SELECTOR 3 10 "" ∅)
    as [[links st]|] eqn:Hrun.
  - exists links, st. split; [reflexivity|].
    destruct (scrape_result_unique_and_capped _ _ _ _ _ _ _ _ _ _ Hrun)
      as (Hnd & Hle & _).
    split; [exact Hnd | apply Hle; lia].
  - vm_compute in Hrun. discriminate Hrun.
Defined.

(** With three pages of ten fresh links each and a target of 25, the run
    returns exactly 25 links, and [page3.csv] still holds all ten links of
    the third page. *)
Example scrape_three_pages :
  ∃ links st,
    scrape_filmweb_links Sites.three_pages 25 1 DEFAULT_SELECTOR 3 10 "" ∅
      = Some (links, st)
    ∧ length links = 25
    ∧ files _ st !! page_file_name 3
      = Some (Csv (page_file_rows (extract_links (Sites.anchors 3))))
    ∧ length (extract_links (Sites.anchors 3)) = 10.
Proof. eexists _, _. split; [vm_compute; reflexivity|]. by vm_compute. Qed.

(** C1, as stated, fails for a negative target: the run returns the empty
    list, whose length 0 is not at most -1. *)
Lemma scrape_result_not_capped_by_negative_target :
  ¬ (∀ links st,
       scrape_filmweb_links Sites.blank_site (-1) 1 DEFAULT_SELECTOR 3 1 "" ∅
         = Some (links, st) →
       (Z.of_nat (length links) ≤ -1)%Z ∧ NoDup links).
Proof.
  intros H.
  destruct (H [] (State Sites.blank_site "" [] ∅ []) eq_refl) as [Hle _].
  simpl in Hle. lia.
Qed.

(** C3 (as amended).  For every page the retry loop makes at most
    [max 0 (retries + 1)] passes (load-and-query attempts); a pass that finds
    ten or more matches is the last one and its matches are what the loop
    hands on; and when the loop ends with an empty match list, the outer
    loop stops there: the run is over, nothing but this page's passes was
    added to the log of visits, and [collected] and the page files are as
    they were. *)
Theorem retry_loop_budget (B : Browser) (target_count : Z) (selector : string)
    (retries page_num : Z) (st : state B) :
  let r := run_retry_loop B selector retries page_num (world B st) in
  (Z.of_nat (length (rr_attempts B r)) ≤ Z.max 0 (retries + 1))%Z
  ∧ (∀ l1 a n l2,
       rr_attempts B r = l1 ++ (a, Matches n) :: l2 → 10 ≤ n →
       l2 = [] ∧ length (rr_elements B r) = n)
  ∧ (rr_elements B r = [] →
     ∀ fuel, (Z.of_nat (length (collected B st)) < target_count)%Z →
       ∃ st', collect_loop B target_count selector retries (S fuel) page_num st
                = Some st'
         ∧ visits B st' = visits B st ++ map (pair page_num) (rr_attempts B r)
         ∧ collected B st' = collected B st
         ∧ files B st' = files B st).
Proof.
  intros r. split; [|split].
  - pose proof (retry_loop_attempts_bound B selector retries
      (Z.to_nat (retries + 1)) (listing_url page_num) 0 [] (world B st)) as Hb.
    fold (run_retry_loop B selector retries page_num (world B st)) in Hb.
    fold r in Hb. lia.
  - intros l1 a n l2. apply retry_loop_stops_at_ten.
  - intros Hempty fuel Hlt. cbn [collect_loop].
    destruct (Z.ltb_spec (Z.of_nat (length (collected B st))) target_count);
      [|lia].
    unfold visit_page. fold r. rewrite Hempty. eexists. split; [reflexivity|].
    by cbn.
Qed.

Lemma retry_loop_budget_witness :
  (∃ st',
     collect_loop Sites.blank_site 5 DEFAULT_SELECTOR 3 1 1
       (State Sites.blank_site "" [] ∅ []) = Some st'
     ∧ visits _ st'
       = [(1, (0, SelectorTimeout)); (1, (1, SelectorTimeout));
          (1, (2, SelectorTimeout)); (1, (3, SelectorTimeout))]%Z)
  ∧ length (rr_elements _
              (run_retry_loop Sites.three_pages DEFAULT_SELECTOR 3 1 "")) = 10.
Proof.
  split.
  - destruct (retry_loop_budget Sites.blank_site 5 DEFAULT_SELECTOR 3 1
                (State Sites.blank_site "" [] ∅ [])) as (_ & _ & Hstop).
    destruct (Hstop eq_refl 0) as (st' & Hrun & Hvisits & _); [simpl; lia|].
    exists st'. split; [exact Hrun | exact Hvisits].
  - destruct (retry_loop_budget Sites.three_pages 5 DEFAULT_SELECTOR 3 1
                (State Sites.three_pages "" [] ∅ [])) as (_ & Hten & _).
    destruct (Hten [] 0%Z 10 [] eq_refl) as [_ Hlen]; [lia|]. exact Hlen.
Defined.

(** C3, as stated, fails for a retry count below -1: no pass is made, and
    0 is not at most [retries + 1]. *)
Lemma retry_loop_budget_not_negative :
  ¬ (Z.of_nat (length (rr_attempts _
        (run_retry_loop Sites.blank_site DEFAULT_SELECTOR (-2) 1 "")))
     ≤ -2 + 1)%Z.
Proof. simpl. lia. Qed.




End CollectorClaims.

(** ** The detail enricher *)

Module EnricherFacts.
Import Enricher.

Lemma out_file_name_inj : Inj (=) (=) out_file_name.
Proof.
  intros p q H. unfold out_file_name in H.
  apply (inj (String.app "data_page")) in H.
  apply PyStrFacts.app_inj_r in H. by apply (inj pretty) in H.
Qed.

Section Run.
Variable B : WebPage.




(** A link navigated to without an error gets its row. *)
Lemma scrape_link_completes (url : string) (w : World B) :
  goto_raises B url w = false → is_Some (scrape_link B url w).
Proof.
  intros Hok. unfold scrape_link. rewrite Hok.
  destruct (goto B url w) as [w1 [|]]; cbn [negb]; [|by eexists].
  destruct (query_selector B TITLE_SELECTOR w1) as [w2 el].
  destruct (query_selector_all B GENRE_SELECTOR w2) as [w3 genre_els].
  destruct (goto_raises B _ w3), (goto B _ w3) as [w4 [|]]; cbn [orb negb];
    try by eexists.
  destruct (query_selector B DESC_SELECTOR w4) as [w5 desc_el]. by eexists.
Qed.

(** The loop appends exactly one row per link, in the order of the links. *)
Lemma scrape_links_rows (links : list string) (results : list row)
    (w w' : World B) (out : list row) :
  scrape_links B links results w = Some (w', out) →
  ∃ rows, out = results ++ rows ∧ Forall2 (row_for B) links rows.
Proof.
  revert results w. induction links as [|url links IH]; intros results w;
    cbn [scrape_links].
  - intros [= _ <-]. exists []. by rewrite app_nil_r.
  - destruct (scrape_link B url w) as [[w1 r]|] eqn:Hlink; [|done].
    cbn [mbind option_bind]. intros Hrest.
    destruct (IH _ _ Hrest) as (rows & -> & Hrows).
    exists (r :: rows). split; [by rewrite <- app_assoc|].
    constructor; [by exists w, w1 | done].
Qed.

Lemma scrape_links_completes (links : list string) (results : list row)
    (w : World B) :
  (∀ url w0, url ∈ links → goto_raises B url w0 = false) →
  is_Some (scrape_links B links results w).
Proof.
  revert results w. induction links as [|url links IH]; intros results w Hok;
    cbn [scrape_links]; [by eexists|].
  destruct (scrape_link_completes url w) as [[w1 r] ->]; [apply Hok; left|].
  cbn [mbind option_bind]. apply IH. intros u w0 Hu. apply Hok. by right.
Qed.

(** What the run of one page writes. *)
Lemma scrape_page_written (links_dir : directory) (page_num : Z)
    (st st' : World B * directory) (links : list string) :
  scrape_page B links_dir page_num st = Some st' →
  read_links_for_page links_dir page_num = Some links →
  links ≠ [] →
  ∃ results,
    st'.2 = <[out_file_name page_num := Csv (HEADER :: results)]> st.2
    ∧ Forall2 (row_for B) links results.
Proof.
  unfold scrape_page. intros Hrun Hread Hne. rewrite Hread in Hrun.
  cbn [mbind option_bind] in Hrun.
  destruct links as [|url links]; [done|].
  destruct (scrape_links B (url :: links) [] st.1) as [[w results]|] eqn:Hlinks;
    [|done].
  cbn [mbind option_bind] in Hrun. injection Hrun as <-.
  destruct (scrape_links_rows _ _ _ _ _ Hlinks) as (rows & Hrows & Hall).
  cbn [app] in Hrows. subst results. by exists rows.
Qed.

Lemma scrape_page_skips (links_dir : directory) (page_num : Z)
    (st : World B * directory) :
  read_links_for_page links_dir page_num = Some [] →
  scrape_page B links_dir page_num st = Some st.
Proof. intros Hread. unfold scrape_page. by rewrite Hread. Qed.

Lemma scrape_page_completes (links_dir : directory) (page_num : Z)
    (st : World B * directory) (links : list string) :
  read_links_for_page links_dir page_num = Some links →
  (∀ url w0, url ∈ links → goto_raises B url w0 = false) →
  is_Some (scrape_page B links_dir page_num st).
Proof.
  intros Hread Hok. unfold scrape_page. rewrite Hread. cbn [mbind option_bind].
  destruct links as [|url links']; [by eexists|].
  destruct (scrape_links_completes (url :: links') [] st.1 Hok)
    as [[w results] Hlinks].
  rewrite Hlinks. by eexists.
Qed.


Lemma read_links_is_None (links_dir : directory) (page_num : Z) :
  read_links_for_page links_dir page_num = None
  ↔ links_dir !! links_file_name page_num = Some Unreadable.
Proof.
  unfold read_links_for_page, isfile, read_csv.
  by destruct (links_dir !! links_file_name page_num) as [[|rows]|].
Qed.

(** The run of a page writes no file but the result file of the page. *)
Lemma scrape_page_frame (links_dir : directory) (page_num : Z)
    (st st' : World B * directory) (name : string) :
  scrape_page B links_dir page_num st = Some st' →
  name ≠ out_file_name page_num →
  st'.2 !! name = st.2 !! name.
Proof.
  unfold scrape_page. destruct (read_links_for_page links_dir page_num) as [links|];
    [|done]. cbn [mbind option_bind].
  destruct links as [|url links]; [by intros [= <-]|].
  destruct (scrape_links B (url :: links) [] st.1) as [[w results]|]; [|done].
  cbn [mbind option_bind].
  intros [= <-] Hname. cbn [snd]. unfold write_page_results.
  by rewrite lookup_insert_ne.
Qed.

Lemma scrape_pages_frame (links_dir : directory) (page_nums : list Z)
    (st st' : World B * directory) (name : string) :
  scrape_pages B links_dir page_nums st = Some st' →
  (∀ p, p ∈ page_nums → name ≠ out_file_name p) →
  st'.2 !! name = st.2 !! name.
Proof.
  revert st. induction page_nums as [|p page_nums IH]; intros st;
    cbn [scrape_pages]; [by intros [= <-]|].
  destruct (scrape_page B links_dir p st) as [st1|] eqn:Hp; [|done].
  cbn [mbind option_bind]. intros Hrun Hname.
  rewrite (IH st1 Hrun) by (intros q Hq; apply Hname; by right).
  eapply scrape_page_frame; [exact Hp|]. apply Hname. left.
Qed.



(** A page file that does not read stops the run, at that page if not
    before. *)
Lemma scrape_pages_unreadable (links_dir : directory) (page_nums : list Z)
    (st : World B * directory) (page_num : Z) :
  page_num ∈ page_nums →
  links_dir !! links_file_name page_num = Some Unreadable →
  scrape_pages B links_dir page_nums st = None.
Proof.
  intros Hin Hbad. revert st.
  induction page_nums as [|p page_nums IH]; intros st;
    [by apply elem_of_nil in Hin|].
  cbn [scrape_pages].
  apply elem_of_cons in Hin as [->|Hin].
  - unfold scrape_page. apply read_links_is_None in Hbad. by rewrite Hbad.
  - destruct (scrape_page B links_dir p st) as [st1|]; [|done].
    cbn [mbind option_bind]. by apply IH.
Qed.

End Run.

Lemma seqZ_one (p : Z) : seqZ p (p + 1 - p) = [p].
Proof. replace (p + 1 - p)%Z with 1%Z by lia. reflexivity. Qed.

Lemma scrape_range_single (B : WebPage) (links_dir : directory) (page_num : Z)
    (st : World B * directory) :
  scrape_range B links_dir page_num page_num st = scrape_page B links_dir page_num st.
Proof.
  unfold scrape_range. rewrite seqZ_one. cbn [scrape_pages].
  by destruct (scrape_page B links_dir page_num st).
Qed.

Lemma elem_of_range (start end_ p : Z) :
  p ∈ seqZ start (end_ + 1 - start) ↔ (start ≤ p ≤ end_)%Z.
Proof. rewrite elem_of_seqZ. lia. Qed.

End EnricherFacts.

Module EnricherClaims.
Import Enricher EnricherFacts.




(** The link is one that the page file of page 2 holds. *)
Example later_page_link_listed :
  read_links_for_page Sites.unreadable_then_film 2 = Some [Sites.film_b].
Proof. reflexivity. Qed.

(** So it does when a navigation fails otherwise than by a timeout: the
    error escapes the loop before the results of the page are written, and
    neither film of [page1.csv] gets a row. *)
Example refused_link_stops_run :
  read_links_for_page Sites.two_film_links 1 = Some [Sites.film_a; Sites.film_b]
  ∧ scrape_range Sites.first_film_refused Sites.two_film_links 1 1 ("", ∅) = None.
Proof. split; reflexivity. Qed.

(** C6 (as amended).  A run of the enricher for a single page whose page
    file yields at least one link replaces the page result file wholesale:
    when the run completes the file holds the header and one row per link,
    whatever it held before, so its data-row count is the number of links
    read; and the run completes when no navigation to a link of the page
    fails otherwise than by a timeout.  When the page file yields no link
    (it is absent, or holds no non-blank data row) the run writes nothing,
    and a page result file left by an earlier run stays as it was. *)
Theorem rerun_overwrites_page_result (B : WebPage) (links_dir : directory)
    (page_num : Z) (w : World B) (out_dir : directory) (links : list string) :
  read_links_for_page links_dir page_num = Some links →
  (links ≠ [] →
     (∀ st',
        scrape_range B links_dir page_num page_num (w, out_dir) = Some st' →
        ∃ results,
          st'.2 = <[out_file_name page_num := Csv (HEADER :: results)]> out_dir
          ∧ length results = length links
          ∧ data_row_count st'.2 page_num = Some (length links))
     ∧ ((∀ url w0, url ∈ links → goto_raises B url w0 = false) →
        ∃ w' results,
          scrape_range B links_dir page_num page_num (w, out_dir)
            = Some (w', <[out_file_name page_num := Csv (HEADER :: results)]> out_dir)
          ∧ length results = length links
          ∧ data_row_count
              (<[out_file_name page_num := Csv (HEADER :: results)]> out_dir) page_num
            = Some (length links)))
  ∧ (links = [] →
     scrape_range B links_dir page_num page_num (w, out_dir) = Some (w, out_dir)).
Proof.
  intros Hread. rewrite scrape_range_single.
  assert (Hwritten : ∀ st',
    links ≠ [] →
    scrape_page B links_dir page_num (w, out_dir) = Some st' →
    ∃ results,
      st'.2 = <[out_file_name page_num := Csv (HEADER :: results)]> out_dir
      ∧ length results = length links
      ∧ data_row_count st'.2 page_num = Some (length links)).
  { intros st' Hne Hrun.
    destruct (scrape_page_written B _ _ _ _ _ Hrun Hread Hne)
      as (results & Hst' & Hrows).
    exists results. split; [exact Hst'|].
    apply Forall2_length in Hrows.
    split; [done|]. rewrite Hst'. unfold data_row_count, read_csv.
    rewrite lookup_insert_eq.
    change (Some (length results) = Some (length links)). by rewrite Hrows. }
  split.
  - intros Hne. split; [intros st'; by apply Hwritten|].
    intros Hok.
    destruct (scrape_page_completes B links_dir page_num (w, out_dir) links Hread Hok)
      as [[w' out'] Hrun].
    destruct (Hwritten _ Hne Hrun) as (results & Hout & Hlen & Hcount).
    cbn [snd] in Hout, Hcount. subst out'. by exists w', results.
  - intros ->. by apply scrape_page_skips.
Qed.

Lemma rerun_overwrites_page_result_witness :
  (∃ w' results,
     scrape_range Sites.two_films Sites.two_film_links 1 1 ("", Sites.stale_results)
       = Some (w', <[out_file_name 1 := Csv (HEADER :: results)]> Sites.stale_results)
     ∧ length results = 2)
  ∧ scrape_range Sites.two_films ∅ 1 1 ("", Sites.stale_results)
    = Some ("", Sites.stale_results).
Proof.
  split.
  - destruct (rerun_overwrites_page_result Sites.two_films Sites.two_film_links 1 ""
                Sites.stale_results [Sites.film_a; Sites.film_b] eq_refl)
      as [Hwritten _].
    destruct Hwritten as [_ Hdone]; [discriminate|].
    destruct Hdone as (w' & results & Hrun & Hlen & _); [reflexivity|].
    exists w', results. split; [exact Hrun | exact Hlen].
  - assert (Hread : read_links_for_page ∅ 1 = Some []) by reflexivity.
    destruct (rerun_overwrites_page_result Sites.two_films ∅ 1 ""
                Sites.stale_results [] Hread) as [_ Hkept].
    apply Hkept. reflexivity.
Defined.

(** C6, as stated, fails when the page file is gone: the run reads no link
    and leaves the result file of the earlier run, with its one data row,
    in place. *)
Lemma rerun_keeps_stale_page_result :
  ¬ (∀ w' out_dir' links,
       read_links_for_page ∅ 1 = Some links →
       scrape_range Sites.two_films ∅ 1 1 ("", Sites.stale_results)
         = Some (w', out_dir') →
       data_row_count out_dir' 1 = Some (length links)).
Proof.
  intros H.
  assert (Hread : read_links_for_page ∅ 1 = Some []) by reflexivity.
  specialize (H "" Sites.stale_results [] Hread).
  rewrite EnricherFacts.scrape_range_single in H. specialize (H eq_refl).
  vm_compute in H. discriminate H.
Qed.

End EnricherClaims.

(** ** The gap finder *)

Module GapFinderFacts.
Import GapFinder GapSpec.

(** The guarded field access never raises, and reads the trimmed cell. *)
Lemma field_cell_text (r : row) (i : nat) : field r i = Some (cell_text r i).
Proof.
  unfold field, cell_text, index. case_bool_decide as Hlt.
  - destruct (lookup_lt_is_Some_2 r i Hlt) as [x ->]. done.
  - rewrite lookup_ge_None_2 by lia. done.
Qed.

Lemma cell_text_short (r : row) (i : nat) : length r ≤ i → cell_text r i = "".
Proof. intros Hle. unfold cell_text. by rewrite lookup_ge_None_2. Qed.

Lemma not_truthy (s : string) : negb (PyStr.truthy s) = true ↔ s = "".
Proof. by destruct s. Qed.

Lemma row_has_missing_spec (ti gi di : nat) (r : row) :
  ∃ b, row_has_missing ti gi di r = Some b
       ∧ (b = true ↔ row_incomplete ti gi di r).
Proof.
  unfold row_has_missing. rewrite !field_cell_text. cbn [mbind option_bind].
  eexists. split; [reflexivity|]. unfold row_incomplete.
  rewrite !orb_true_iff, !not_truthy, !bool_decide_eq_true. tauto.
Qed.

Lemma rows_have_missing_spec (ti gi di : nat) (data : list row) :
  ∃ b, rows_have_missing ti gi di data = Some b
       ∧ (b = true ↔ ∃ r, r ∈ data ∧ row_incomplete ti gi di r).
Proof.
  induction data as [|r data (b & IH & Hb)]; cbn [rows_have_missing].
  - exists false. split; [done|]. split; [done|].
    intros (r & Hr & _). by apply elem_of_nil in Hr.
  - destruct (row_has_missing_spec ti gi di r) as (br & -> & Hbr).
    cbn [mbind option_bind]. destruct br.
    + exists true. split; [done|]. split; [|done].
      intros _. exists r. split; [left | by apply Hbr].
    + exists b. split; [done|]. rewrite Hb. split.
      * intros (r' & Hr' & Hinc). exists r'. split; [by right | done].
      * intros (r' & [->|Hr']%elem_of_cons & Hinc).
        -- apply Hbr in Hinc. done.
        -- by exists r'.
Qed.

(** The dictionary of column positions: a name is a key exactly when some
    column bears it, and its value is the position of the last such column. *)
Lemma idx_map_snoc (header : row) (h : string) :
  idx_map (header ++ [h])
  = <[PyStr.lower (PyStr.strip h) := length header]> (idx_map header).
Proof.
  unfold idx_map. rewrite imap_app, fold_left_app. cbn.
  by rewrite Nat.add_0_r.
Qed.

Lemma idx_map_lookup (header : row) (c : string) :
  (idx_map header !! c = None ↔ c ∉ column_names header)
  ∧ (∀ i, idx_map header !! c = Some i ↔ is_column header c i).
Proof.
  unfold is_column, column_names.
  induction header as [|h header [IHn IHs]] using rev_ind.
  - split; [split; [intros _ H; by apply elem_of_nil in H | done]|].
    intros i. split; [done | by intros [? _]].
  - rewrite idx_map_snoc, fmap_app. cbn [fmap list_fmap].
    set (names := (λ h, PyStr.lower (PyStr.strip h)) <$> header) in *.
    assert (Hlen : length names = length header) by apply length_fmap.
    destruct (decide (PyStr.lower (PyStr.strip h) = c)) as [<-|Hne].
    + rewrite lookup_insert_eq. split.
      * split; [done|]. intros Hnot. exfalso. apply Hnot.
        apply elem_of_app. right. left.
      * intros i. split.
        -- intros [= <-]. split.
           ++ rewrite lookup_app_r by lia. by rewrite Hlen, Nat.sub_diag.
           ++ intros j Hj. rewrite lookup_ge_None_2; [done|].
              rewrite length_app. simpl. lia.
        -- intros [Hi Hlast]. f_equal.
           destruct (decide (i = length header)) as [->|Hi']; [done|].
           exfalso. assert (i < length header).
           { apply lookup_lt_Some in Hi. rewrite length_app in Hi. simpl in Hi. lia. }
           apply (Hlast (length header)); [lia|].
           rewrite lookup_app_r by lia. by rewrite Hlen, Nat.sub_diag.
    + rewrite lookup_insert_ne by done. split.
      * rewrite IHn. rewrite elem_of_app, list_elem_of_singleton. split.
        -- intros Hn [Hin|Heq]; [by apply Hn | by apply Hne].
        -- intros Hn Hin. apply Hn. by left.
      * intros i. rewrite IHs. split.
        -- intros [Hi Hlast]. split.
           ++ by apply lookup_app_l_Some.
           ++ intros j Hj. destruct (decide (j < length names)) as [Hjl|Hjl].
              ** rewrite lookup_app_l by done. by apply Hlast.
              ** rewrite lookup_app_r by lia.
                 destruct (j - length names) as [|k] eqn:Hk; simpl; [|done].
                 intros [= Heq]. done.
        -- intros [Hi Hlast].
           assert (Hil : i < length names).
           { destruct (decide (i < length names)) as [|Hge]; [done|].
             rewrite lookup_app_r in Hi by lia.
             destruct (i - length names) as [|k]; simpl in Hi; [|done].
             by injection Hi. }
           split.
           ++ by rewrite lookup_app_l in Hi.
           ++ intros j Hj Hcj. apply (Hlast j Hj).
              by apply lookup_app_l_Some.
Qed.

(** The test of one file never raises, and holds exactly for the files
    that are incomplete. *)
Lemma file_has_missing_spec (nd : node) :
  ∃ b, file_has_missing nd = Some b ∧ (b = true ↔ incomplete nd).
Proof.
  unfold incomplete.
  destruct nd as [|rows]; cbn [file_has_missing incomplete_for]; [by exists true|].
  case_bool_decide as Hlen.
  { exists true. split; [done|]. split; [by left | done]. }
  destruct rows as [|header data]; [simpl in Hlen; lia|].
  destruct (idx_map_lookup header "title") as [Htn Hts].
  destruct (idx_map_lookup header "genres") as [Hgn Hgs].
  destruct (idx_map_lookup header "description") as [Hdn Hds].
  destruct (idx_map header !! "title") as [ti|] eqn:Hti.
  2: { exists true. split; [done|]. split; [|done]. intros _. right.
       exists header, data. split; [done|]. left. by apply Htn. }
  destruct (idx_map header !! "genres") as [gi|] eqn:Hgi.
  2: { exists true. split; [done|]. split; [|done]. intros _. right.
       exists header, data. split; [done|]. right. left. by apply Hgn. }
  destruct (idx_map header !! "description") as [di|] eqn:Hdi.
  2: { exists true. split; [done|]. split; [|done]. intros _. right.
       exists header, data. split; [done|]. right. right. left. by apply Hdn. }
  destruct (rows_have_missing_spec ti gi di data) as (b & -> & Hb).
  exists b. split; [done|]. rewrite Hb. split.
  - intros (r & Hr & Hinc). right. exists header, data. split; [done|].
    do 3 right. exists ti, gi, di, r.
    split; [by apply Hts|]. split; [by apply Hgs|]. split; [by apply Hds|]. done.
  - intros [Hlt | (header' & data' & Heq & H)]; [lia|].
    injection Heq as <- <-.
    destruct H as [H|[H|[H|H]]].
    + by apply Htn in H.
    + by apply Hgn in H.
    + by apply Hdn in H.
    + destruct H as (ti' & gi' & di' & r & H1 & H2 & H3 & Hr & Hinc).
      apply Hts in H1. apply Hgs in H2. apply Hds in H3.
      injection H1 as <-. injection H2 as <-. injection H3 as <-.
      by exists r.
Qed.

Lemma scan_entries_spec (entries : list (string * node)) (pages : gset Z) :
  ∃ pages', scan_entries pages entries = Some pages'
    ∧ ∀ p, p ∈ pages' ↔
        p ∈ pages
        ∨ ∃ name nd, (name, nd) ∈ entries
            ∧ page_of_name name = Some p ∧ incomplete nd.
Proof.
  revert pages. induction entries as [|[name nd] entries IH]; intros pages;
    cbn [scan_entries].
  - exists pages. split; [done|]. intros p. split; [by left|].
    intros [Hp|(n & d & Hin & _)]; [done | by apply elem_of_nil in Hin].
  - unfold scan_entry. cbn [fst snd].
    destruct (file_has_missing_spec nd) as (b & Hfile & Hb).
    assert (Hstep : ∃ pages1,
      match page_of_name name with
      | Some page_num =>
          b ← file_has_missing nd;
          Some (if b : bool then {[page_num]} ∪ pages else pages)
      | None => Some pages
      end = Some pages1
      ∧ ∀ p, p ∈ pages1 ↔
          p ∈ pages ∨ (page_of_name name = Some p ∧ incomplete nd)).
    { destruct (page_of_name name) as [page_num|].
      - rewrite Hfile. cbn [mbind option_bind]. destruct b.
        + eexists. split; [done|]. intros p.
          rewrite elem_of_union, elem_of_singleton. split.
          * intros [->|Hp]; [right; split; [done | by apply Hb] | by left].
          * intros [Hp|[[= ->] _]]; [by right | by left].
        + exists pages. split; [done|]. intros p. split; [by left|].
          intros [Hp|[_ Hinc]]; [done|]. by apply Hb in Hinc.
      - exists pages. split; [done|]. intros p. split; [by left|].
        by intros [Hp|[? _]]. }
    destruct Hstep as (pages1 & -> & H1). cbn [mbind option_bind].
    destruct (IH pages1) as (pages' & -> & H').
    exists pages'. split; [done|]. intros p. rewrite H', H1. split.
    + intros [[Hp|[Hn Hinc]]|(n & d & Hin & Hn & Hinc)].
      * by left.
      * right. exists name, nd. split; [left | done].
      * right. exists n, d. split; [by right | done].
    + intros [Hp|(n & d & Hin & Hn & Hinc)]; [by left; left|].
      apply elem_of_cons in Hin as [[= -> ->]|Hin].
      * left. by right.
      * right. by exists n, d.
Qed.

End GapFinderFacts.

Module GapFinderClaims.
Import GapFinder GapSpec GapFinderFacts.

(** C7 (as amended).  The gap finder returns for every directory, and it
    flags a page number if and only if some file named for that page fails
    to read, or has fewer than two rows, or has a header without a title,
    genres or description column, or has a data row whose trimmed title,
    genres or description is empty or missing, whose title equals the
    title marker, or whose description equals the description marker. *)
Theorem flagged_iff_incomplete (d : directory) :
  ∃ pages, find_pages_with_missing (Some d) = Some pages
    ∧ ∀ p, p ∈ pages ↔
        ∃ name nd, d !! name = Some nd
          ∧ page_of_name name = Some p ∧ incomplete nd.
Proof.
  cbn [find_pages_with_missing].
  destruct (scan_entries_spec (map_to_list d) ∅) as (pages & -> & Hpages).
  exists pages. split; [done|]. intros p. rewrite Hpages. split.
  - intros [Hp|(name & nd & Hin & Hrest)]; [by apply elem_of_empty in Hp|].
    exists name, nd. split; [by apply elem_of_map_to_list | done].
  - intros (name & nd & Hin & Hrest). right.
    exists name, nd. split; [by apply elem_of_map_to_list | done].
Qed.

(** A page with a record whose title is empty is flagged. *)
Example blank_title_flagged :
  find_pages_with_missing (Some Sites.blank_title) = Some {[1%Z]}.
Proof. by vm_compute. Qed.

Lemma misplaced_marker_claimed : incomplete_any_marker Sites.misplaced_marker_file.
Proof.
  right. eexists _, _. split; [reflexivity|]. do 3 right.
  exists 1, 2, 3, ["url1"; "__MISSING_DESCRIPTION__"; "Drama"; "A description"].
  assert (Hcol : ∀ c i, column_names Enricher.HEADER !! i = Some c →
                        i < 4 → (∀ j, i < j → j < 4 →
                          column_names Enricher.HEADER !! j ≠ Some c) →
                        is_column Enricher.HEADER c i).
  { intros c i Hi Hlt Hlast. split; [exact Hi|]. intros j Hj.
    destruct (decide (j < 4)) as [Hj4|Hj4]; [by apply Hlast|].
    rewrite lookup_ge_None_2; [discriminate|]. 
    change (4 ≤ j). lia. }
  split; [|split; [|split; [|split]]].
  - apply Hcol; [reflexivity | lia |].
    intros [|[|[|[|j]]]] ??; try lia; vm_compute; discriminate.
  - apply Hcol; [reflexivity | lia |].
    intros [|[|[|[|j]]]] ??; try lia; vm_compute; discriminate.
  - apply Hcol; [reflexivity | lia |].
    intros [|[|[|[|j]]]] ??; lia.
  - left.
  - do 3 right. exists 1. split; [left|]. right. reflexivity.
Qed.

(** C7, as stated, fails for a marker in another field: a title equal to
    the description marker is a field value equal to one of the two
    markers, yet the page is not flagged. *)
Lemma misplaced_marker_not_flagged :
  ¬ (∀ pages,
       find_pages_with_missing (Some Sites.misplaced_marker) = Some pages →
       ∀ p, p ∈ pages ↔
         ∃ name nd, Sites.misplaced_marker !! name = Some nd
           ∧ page_of_name name = Some p ∧ incomplete_any_marker nd).
Proof.
  intros H.
  assert (Hrun : find_pages_with_missing (Some Sites.misplaced_marker) = Some ∅)
    by (vm_compute; reflexivity).
  specialize (H ∅ Hrun 1%Z). destruct H as [_ H].
  eapply (not_elem_of_empty (C := gset Z)). apply H.
  exists "data_page1.csv", Sites.misplaced_marker_file.
  split; [done|]. split; [done|]. apply misplaced_marker_claimed.
Qed.

(** C10.  The access to a field of a data row never raises: it yields the
    trimmed cell when the row has it and the empty string when the row is
    too short; so the test of a row never raises, and a row too short for
    one of the three columns makes the test hold, the test of its file
    hold, and the page number of every file name that holds it be in the
    set the gap finder returns; and the gap finder as a whole never
    raises. *)
Theorem field_access_guarded (r : row) (ti gi di : nat) :
  (∀ i, is_Some (field r i))
  ∧ (∀ i, length r ≤ i → field r i = Some "")
  ∧ is_Some (row_has_missing ti gi di r)
  ∧ (length r ≤ ti ∨ length r ≤ gi ∨ length r ≤ di →
       row_has_missing ti gi di r = Some true
       ∧ ∀ header data,
           idx_map header !! "title" = Some ti →
           idx_map header !! "genres" = Some gi →
           idx_map header !! "description" = Some di →
           r ∈ data →
           file_has_missing (Csv (header :: data)) = Some true
           ∧ ∀ out_dir name page_num,
               out_dir !! name = Some (Csv (header :: data)) →
               page_of_name name = Some page_num →
               ∃ pages,
                 find_pages_with_missing (Some out_dir) = Some pages
                 ∧ page_num ∈ pages)
  ∧ (∀ out_dir, is_Some (find_pages_with_missing out_dir)).
Proof.
  assert (Hshort : length r ≤ ti ∨ length r ≤ gi ∨ length r ≤ di →
                   row_incomplete ti gi di r).
  { unfold row_incomplete. intros [H|[H|H]]; apply cell_text_short in H; tauto. }
  split; [|split; [|split; [|split]]].
  - intros i. rewrite field_cell_text. by eexists.
  - intros i Hle. by rewrite field_cell_text, cell_text_short.
  - destruct (row_has_missing_spec ti gi di r) as (b & -> & _). by eexists.
  - intros Hlen. split.
    + destruct (row_has_missing_spec ti gi di r) as (b & -> & Hb).
      f_equal. by apply Hb, Hshort.
    + intros header data Hti Hgi Hdi Hr.
      assert (Hinc : incomplete (Csv (header :: data))).
      { right. exists header, data. split; [done|].
        do 3 right. exists ti, gi, di, r.
        split; [by apply idx_map_lookup|]. split; [by apply idx_map_lookup|].
        split; [by apply idx_map_lookup|]. split; [done | by apply Hshort]. }
      split.
      * destruct (file_has_missing_spec (Csv (header :: data))) as (b & -> & Hb).
        f_equal. by apply Hb.
      * intros out_dir name page_num Hfile Hname.
        cbn [find_pages_with_missing].
        destruct (scan_entries_spec (map_to_list out_dir) ∅)
          as (pages & -> & Hpages).
        exists pages. split; [done|]. apply Hpages. right.
        exists name, (Csv (header :: data)).
        split; [by apply elem_of_map_to_list | done].
  - intros [d|]; [|by eexists].
    cbn [find_pages_with_missing].
    destruct (scan_entries_spec (map_to_list d) ∅) as (pages & -> & _).
    by eexists.
Qed.

Lemma field_access_guarded_witness :
  field ["url1"; "Movie A"] 2 = Some ""
  ∧ file_has_missing Sites.short_row_file = Some true
  ∧ ∃ pages, find_pages_with_missing (Some Sites.short_row) = Some pages
             ∧ 1%Z ∈ pages.
Proof.
  destruct (field_access_guarded ["url1"; "Movie A"] 1 2 3)
    as (_ & Hempty & _ & Hflag & _).
  split.
  - apply Hempty. simpl. lia.
  - destruct Hflag as [_ Hfile]; [right; left; simpl; lia|].
    destruct (Hfile Enricher.HEADER [["url1"; "Movie A"]]) as [Htest Hpage];
      [vm_compute; reflexivity.. | left |].
    split; [exact Htest|].
    apply (Hpage Sites.short_row "data_page1.csv" 1%Z); vm_compute; reflexivity.
Defined.

(** C8 (the code as it is).  [main] reports the flagged pages and runs
    nothing: for a directory whose page 1 is flagged it hands no command
    line to [subprocess.run], although [run_scrape_for_pages] would build
    one for that page. *)
Theorem main_runs_no_enrichment :
  main "python3" (Some Sites.blank_title) "scrape_details.py" false 5 "0.5"
    = Some (MainResult [1%Z] [])
  ∧ run_scrape_for_pages "python3" {[1%Z]} "scrape_details.py" false 5 "0.5"
    = [["python3"; "scrape_details.py"; "--start"; "1"; "--end"; "1";
        "--link-retries"; "5"; "--link-retry-wait"; "0.5"]]
  ∧ ∀ executable out_dir script headed link_retries link_retry_wait r,
      main executable out_dir script headed link_retries link_retry_wait = Some r →
      spawned r = [].
Proof.
  split; [by vm_compute|]. split; [by vm_compute|].
  intros executable out_dir script headed link_retries link_retry_wait r.
  unfold main. destruct (find_pages_with_missing out_dir); [|done].
  by intros [= <-].
Qed.

End GapFinderClaims.

(** ** The completeness verifier *)

Module VerifierFacts.
Import Verifier VerifierSpec.

Lemma elem_of_expected_pages (i : Z) : i ∈ expected_pages ↔ expected i.
Proof.
  unfold expected_pages, expected, EXPECTED_COUNT. rewrite elem_of_seqZ. lia.
Qed.

Lemma app_singleton_not_nil {A} (l : list A) (x : A) : l ++ [x] ≠ [].
Proof. by destruct l. Qed.

Section Directory.
Variable d : directory.

Lemma missing_fold (l : list Z) (acc : list string) :
  fold_left (missing_step d) l acc = []
  ↔ acc = [] ∧ ∀ i, i ∈ l → ¬ is_missing d i.
Proof.
  revert acc. induction l as [|i l IH]; intros acc; cbn [fold_left].
  - split; [intros ->; split; [done|] | by intros [-> _]].
    intros i Hi. by apply elem_of_nil in Hi.
  - rewrite IH. unfold missing_step, isfile, is_missing.
    destruct (d !! fname i) as [nd|] eqn:Hi; cbn [negb].
    + split; intros [-> H]; (split; [done|]).
      * intros j [->|Hj]%elem_of_cons; [by rewrite Hi | by apply H].
      * intros j Hj. apply H. by right.
    + split.
      * intros [Hnil _]. by apply app_singleton_not_nil in Hnil.
      * intros [_ H]. exfalso. apply (H i); [left | done].
Qed.

Lemma inspect_fold (l : list Z) (rep : report) :
  let rep' := fold_left (inspect_step d) l rep in
  (bad_header rep' = []
     ↔ bad_header rep = [] ∧ ∀ i, i ∈ l → ¬ has_bad_header d i)
  ∧ (short_files rep' = []
     ↔ short_files rep = [] ∧ ∀ i, i ∈ l → ¬ is_short d i)
  ∧ (problems rep' = []
     ↔ problems rep = [] ∧ ∀ i, i ∈ l → ¬ is_unreadable d i).
Proof.
  revert rep. induction l as [|i l IH]; intros rep; cbn [fold_left].
  { repeat split; try tauto; intros i Hi; by apply elem_of_nil in Hi. }
  destruct (IH (inspect_step d rep i)) as (IHb & IHs & IHp). cbv zeta.
  rewrite IHb, IHs, IHp. clear IH IHb IHs IHp.
  assert (Hkeep : ∀ (P : Z → Prop) (X : Prop),
    ¬ P i →
    (X ∧ (∀ j, j ∈ l → ¬ P j)) ↔ (X ∧ ∀ j, j ∈ i :: l → ¬ P j)).
  { intros P X Hi. split; intros [HX H]; (split; [done|]).
    - intros j [->|Hj]%elem_of_cons; [done | by apply H].
    - intros j Hj. apply H. by right. }
  assert (Hadd : ∀ (P : Z → Prop) {A} (acc : list A) (x : A),
    P i →
    (acc ++ [x] = [] ∧ (∀ j, j ∈ l → ¬ P j))
    ↔ (acc = [] ∧ ∀ j, j ∈ i :: l → ¬ P j)).
  { intros P A acc x Hi. split.
    - intros [Hnil _]. by apply app_singleton_not_nil in Hnil.
    - intros [_ H]. exfalso. apply (H i); [left | done]. }
  unfold inspect_step, isfile, read_csv.
  destruct (d !! fname i) as [[|[|header data_rows]]|] eqn:Hi;
    cbn [negb short_files bad_header problems].
  - (* the file does not read *)
    split; [|split].
    + apply Hkeep. unfold has_bad_header. rewrite Hi. by intros (h & dr & [=] & _).
    + apply Hkeep. unfold is_short. rewrite Hi.
      by intros [[=]|(h & dr & [=] & _)].
    + by apply Hadd.
  - (* the file has no row at all *)
    split; [|split].
    + apply Hkeep. unfold has_bad_header. rewrite Hi. by intros (h & dr & [=] & _).
    + apply Hadd. by left.
    + apply Hkeep. unfold is_unreadable. rewrite Hi. by intros [=].
  - (* the file has a header row *)
    split; [|split].
    + destruct (header_is_bad header) eqn:Hbad.
      * apply Hadd. by eexists _, _.
      * apply Hkeep. unfold has_bad_header. rewrite Hi.
        intros (h & dr & [= <- <-] & Hb). congruence.
    + destruct (Nat.ltb_spec (length (filter (λ r, row_is_data r) data_rows))
                  EXPECTED_ROWS_PER_FILE) as [Hlt|Hge].
      * apply Hadd. right. by eexists _, _.
      * apply Hkeep. unfold is_short, data_count. rewrite Hi.
        intros [[=]|(h & dr & [= <- <-] & Hlt)]. lia.
    + apply Hkeep. unfold is_unreadable. rewrite Hi. by intros [=].
  - (* the file is absent *)
    split; [|split].
    + apply Hkeep. unfold has_bad_header. rewrite Hi. by intros (h & dr & [=] & _).
    + apply Hkeep. unfold is_short. rewrite Hi.
      by intros [[=]|(h & dr & [=] & _)].
    + apply Hkeep. unfold is_unreadable. rewrite Hi. by intros [=].
Qed.

End Directory.

Lemma nonempty_false {A} (l : list A) : nonempty l = false ↔ l = [].
Proof. by destruct l. Qed.

Lemma nonempty_true {A} (l : list A) : nonempty l = true ↔ l ≠ [].
Proof. by destruct l. Qed.

End VerifierFacts.

Module VerifierClaims.
Import Verifier VerifierSpec VerifierFacts.

(** C9 (as amended).  The exit status is 2 when the links directory is
    absent.  Otherwise it is 1 when any problem is detected, that is when
    the list of missing files, of files with a bad header, of short files
    or of files that failed to read is not empty, and it is 0 exactly when
    all four lists are empty.  Each list is empty exactly when no expected
    page has the problem it records. *)
Theorem verify_exit_status :
  verify None = 2%Z
  ∧ ∀ d : directory,
      (verify (Some d) = 1%Z
         ↔ find_missing d ≠ [] ∨ bad_header (inspect d) ≠ []
           ∨ short_files (inspect d) ≠ [] ∨ problems (inspect d) ≠ [])
      ∧ (verify (Some d) = 0%Z
         ↔ find_missing d = [] ∧ bad_header (inspect d) = []
           ∧ short_files (inspect d) = [] ∧ problems (inspect d) = [])
      ∧ (find_missing d = [] ↔ ∀ i, expected i → ¬ is_missing d i)
      ∧ (bad_header (inspect d) = [] ↔ ∀ i, expected i → ¬ has_bad_header d i)
      ∧ (short_files (inspect d) = [] ↔ ∀ i, expected i → ¬ is_short d i)
      ∧ (problems (inspect d) = [] ↔ ∀ i, expected i → ¬ is_unreadable d i).
Proof.
  split; [reflexivity|]. intros d.
  assert (Hall : ∀ P : Z → Prop,
    (∀ i, i ∈ expected_pages → ¬ P i) ↔ (∀ i, expected i → ¬ P i)).
  { intros P. split; intros H i Hi; apply H; by apply elem_of_expected_pages. }
  pose proof (inspect_fold d expected_pages (Report [] [] [])) as (Hb & Hs & Hp).
  pose proof (missing_fold d expected_pages []) as Hm.
  change (bad_header (Report [] [] [])) with (@nil string) in Hb.
  change (short_files (Report [] [] [])) with (@nil (string * nat)) in Hs.
  change (problems (Report [] [] [])) with (@nil string) in Hp.
  unfold verify, inspect, find_missing.
  revert Hb Hs Hp Hm.
  generalize (fold_left (inspect_step d) expected_pages (Report [] [] [])).
  generalize (fold_left (missing_step d) expected_pages []).
  intros missing rep Hb Hs Hp Hm.
  split; [|split; [|split; [|split; [|split]]]].
  - rewrite <- !nonempty_true.
    destruct (nonempty missing), (nonempty (bad_header rep)),
      (nonempty (short_files rep)), (nonempty (problems rep));
      cbn [orb]; intuition congruence.
  - rewrite <- !nonempty_false.
    destruct (nonempty missing), (nonempty (bad_header rep)),
      (nonempty (short_files rep)), (nonempty (problems rep));
      cbn [orb]; intuition congruence.
  - rewrite Hm, Hall. tauto.
  - rewrite Hb, Hall. tauto.
  - rewrite Hs, Hall. tauto.
  - rewrite Hp, Hall. tauto.
Qed.

Lemma verify_exit_status_witness :
  verify (Some Sites.full_links) = 0%Z
  ∧ verify (Some Sites.links_one_unreadable) = 1%Z.
Proof.
  destruct verify_exit_status as [_ Hdir]. split.
  - destruct (Hdir Sites.full_links) as (_ & Hzero & _).
    apply Hzero. split; [|split; [|split]]; vm_compute; reflexivity.
  - destruct (Hdir Sites.links_one_unreadable) as (Hone & _).
    apply Hone. do 3 right. vm_compute. discriminate.
Defined.

(** With only [page1.csv] present, sound and full, the verifier reports
    the other expected files as missing, no bad header and no short file,
    and fails. *)
Example verify_single_page :
  take 2 (find_missing Sites.only_page_one) = ["page2.csv"; "page3.csv"]
  ∧ bad_header (inspect Sites.only_page_one) = []
  ∧ short_files (inspect Sites.only_page_one) = []
  ∧ verify (Some Sites.only_page_one) = 1%Z.
Proof. split; [|split; [|split]]; vm_compute; reflexivity. Qed.

(** C9, as stated, fails when a read error is the only problem: the lists
    of missing files, bad headers and short files are all empty, yet the
    exit status is 1, not 0. *)
Lemma verify_read_error_alone :
  ¬ (verify (Some Sites.links_one_unreadable) = 0%Z
     ↔ find_missing Sites.links_one_unreadable = []
       ∧ bad_header (inspect Sites.links_one_unreadable) = []
       ∧ short_files (inspect Sites.links_one_unreadable) = []).
Proof.
  intros [_ H].
  assert (Hzero : verify (Some Sites.links_one_unreadable) = 0%Z).
  { apply H. split; [|split]; vm_compute; reflexivity. }
  vm_compute in Hzero. discriminate Hzero.
Qed.

End VerifierClaims.
(** * Further properties *)

(** ** The link collector *)

Module CollectorMore.
Import Collector CollectorFacts.

Section Run.
Variable B : Browser.
Variables (target_count : Z) (selector : string) (retries : Z).

Abbreviation retry_loop := (retry_loop B selector retries).
Abbreviation run_retry_loop := (run_retry_loop B selector retries).
Abbreviation merge := (merge target_count).
Abbreviation visit_page := (visit_page B target_count selector retries).
Abbreviation collect_loop := (collect_loop B target_count selector retries).

(** Merging appends to [collected] a sub-sequence of the page's links, none
    of which was collected before. *)
Lemma merge_appends (collected page_links : list string) :
  ∃ new, merge collected page_links = collected ++ new
         ∧ new `sublist_of` page_links
         ∧ ∀ u, u ∈ new → u ∉ collected.
Proof.
  revert collected.
  induction page_links as [|u page_links IH]; intros collected; cbn [Collector.merge].
  - exists []. split; [by rewrite app_nil_r|]. split; [constructor|].
    intros u Hu. by apply elem_of_nil in Hu.
  - case_bool_decide as Hin.
    + destruct (IH collected) as (new & -> & Hsub & Hnew).
      exists new. split; [done|]. split; [by apply sublist_cons | done].
    + destruct (target_count <=? _)%Z.
      * exists [u]. split; [done|]. split.
        -- apply sublist_skip, sublist_nil_l.
        -- by intros v ->%list_elem_of_singleton.
      * destruct (IH (collected ++ [u])) as (new & -> & Hsub & Hnew).
        exists (u :: new). split; [by rewrite <- app_assoc|]. split.
        -- by apply sublist_skip.
        -- intros v [->|Hv]%elem_of_cons; [done|].
           intros Hc. apply (Hnew v Hv). apply elem_of_app. by left.
Qed.

(** Merging never takes [collected] past a target it has not reached. *)
Lemma merge_length (collected page_links : list string) :
  (Z.of_nat (length collected) < target_count)%Z →
  (Z.of_nat (length (merge collected page_links)) ≤ target_count)%Z.
Proof.
  revert collected.
  induction page_links as [|u page_links IH]; intros collected Hlt;
    cbn [Collector.merge]; [lia|].
  case_bool_decide; [by apply IH|].
  destruct (Z.leb_spec target_count (Z.of_nat (length (collected ++ [u]))))
    as [Hle|Hgt].
  - rewrite length_app in *. simpl in *. lia.
  - by apply IH.
Qed.

Lemma collect_loop_length fuel page_num st st' :
  (Z.of_nat (length (collected B st)) ≤ Z.max 0 target_count)%Z →
  collect_loop fuel page_num st = Some st' →
  (Z.of_nat (length (collected B st')) ≤ Z.max 0 target_count)%Z.
Proof.
  revert page_num st.
  induction fuel as [|fuel IH]; intros page_num st Hle; cbn [Collector.collect_loop];
    [done|].
  destruct (Z.ltb_spec (Z.of_nat (length (collected B st))) target_count)
    as [Hlt|Hge]; [|by intros [= <-]].
  unfold Collector.visit_page.
  destruct (rr_elements B _) as [|el els].
  - by intros [= <-].
  - apply IH. cbn [collected].
    pose proof (merge_length (collected B st) (extract_links (el :: els)) Hlt). lia.
Qed.

Lemma collect_loop_prefix fuel page_num st st' :
  collect_loop fuel page_num st = Some st' →
  collected B st `prefix_of` collected B st'.
Proof.
  revert page_num st.
  induction fuel as [|fuel IH]; intros page_num st; cbn [Collector.collect_loop];
    [done|].
  destruct (_ <? _)%Z; [|by intros [= <-]].
  unfold Collector.visit_page.
  destruct (rr_elements B _) as [|el els].
  - by intros [= <-].
  - intros Hrun. apply IH in Hrun. cbn [collected] in Hrun.
    destruct (merge_appends (collected B st) (extract_links (el :: els)))
      as (new & Hnew & _).
    rewrite Hnew in Hrun. etrans; [|exact Hrun]. by apply prefix_app_r.
Qed.

(** When the loop hands on fewer than ten elements, it ran until the guard
    ended it. *)
Lemma retry_loop_exhausted fuel url attempt elements w :
  Z.to_nat (retries + 1 - attempt) ≤ fuel →
  length elements < 10 →
  length (rr_elements B (retry_loop fuel url attempt elements w)) < 10 →
  length (rr_attempts B (retry_loop fuel url attempt elements w))
  = Z.to_nat (retries + 1 - attempt).
Proof.
  revert attempt elements w.
  induction fuel as [|fuel IH]; intros attempt elements w Hfuel Hels;
    cbn [Collector.retry_loop].
  { cbn [rr_attempts length]. lia. }
  destruct (Z.leb_spec attempt retries) as [Hle|Hgt];
    [|cbn [rr_attempts length]; lia].
  assert (Hrec : ∀ o els w',
    length els < 10 →
    length (rr_elements B (tick B attempt o (retry_loop fuel url (attempt + 1) els w'))) < 10 →
    length (rr_attempts B (tick B attempt o (retry_loop fuel url (attempt + 1) els w')))
    = Z.to_nat (retries + 1 - attempt)).
  { intros o els w' Hlt Hres. cbn [tick rr_attempts rr_elements length] in *.
    rewrite IH by (done || lia). lia. }
  destruct (goto B url w) as [w1 [|]]; cbn [negb]; [|by apply Hrec].
  destruct (wait_for_selector B selector (scroll B w1)) as [w2 [|]]; cbn [negb];
    [|apply Hrec; simpl; lia].
  destruct (query_selector_all B selector w2) as [w3 els].
  destruct (Nat.leb_spec 10 (length els)) as [Hten|Hten].
  - cbn [rr_elements]. lia.
  - by apply Hrec.
Qed.


End Run.

End CollectorMore.

Module CollectorExtras.
Import Collector CollectorFacts CollectorMore.

(** X1.  The list a completed run returns is [collected] itself: the loop
    never takes [collected] past the target, so the final slice drops
    nothing. *)
Theorem returned_list_is_collected (B : Browser)
    (target_count start_page : Z) (selector : string) (retries : Z)
    (fuel : nat) (w : World B) (links_dir : directory)
    (links : list string) (st : state B) :
  scrape_filmweb_links B target_count start_page selector retries fuel w links_dir
    = Some (links, st) →
  links = collected B st.
Proof.
  unfold scrape_filmweb_links.
  destruct (collect_loop _ _ _ _ _ _ _) as [st'|] eqn:Hloop; [|done].
  intros [= <- <-].
  assert (Hlen : (Z.of_nat (length (collected B st')) ≤ Z.max 0 target_count)%Z).
  { eapply collect_loop_length; [|exact Hloop]. cbn [collected length]. lia. }
  unfold PyStr.slice_to. destruct (Z.leb_spec 0 target_count) as [Hpos|Hneg].
  - apply take_ge. lia.
  - apply collect_loop_nothing_to_do in Hloop; [|simpl; lia]. by subst st'.
Qed.

Lemma returned_list_is_collected_witness :
  ∃ links st,
    scrape_filmweb_links Sites.three_pages 25 1 DEFAULT_SELECTOR 3 10 "" ∅
      = Some (links, st)
    ∧ links = collected _ st.
Proof.
  destruct (scrape_filmweb_links Sites.three_pages 25 1 DEFAULT_SELECTOR 3 10 "" ∅)
    as [[links st]|] eqn:Hrun.
  - exists links, st. split; [reflexivity|].
    exact (returned_list_is_collected _ _ _ _ _ _ _ _ _ _ Hrun).
  - vm_compute in Hrun. discriminate Hrun.
Defined.



(** X3.  [collected] only grows, and in first-seen order: a visited page
    appends to it a sub-sequence of its own links, none of them collected
    before, and whatever the rest of the run does, the list it started from
    stays as a prefix. *)
Theorem collected_only_grows (B : Browser) (target_count : Z)
    (selector : string) (retries page_num : Z) (st : state B) :
  (∀ st', visit_page B target_count selector retries page_num st = inr st' →
     ∃ new, collected B st' = collected B st ++ new
       ∧ new `sublist_of`
           extract_links (rr_elements B
             (run_retry_loop B selector retries page_num (world B st)))
       ∧ ∀ u, u ∈ new → u ∉ collected B st)
  ∧ (∀ fuel st',
       collect_loop B target_count selector retries fuel page_num st = Some st' →
       collected B st `prefix_of` collected B st').
Proof.
  split.
  - intros st'. unfold visit_page.
    destruct (rr_elements B _) as [|el els]; [done|]. intros [= <-].
    cbn [collected]. apply merge_appends.
  - intros fuel st'. apply collect_loop_prefix.
Qed.

Lemma collected_only_grows_witness :
  ∃ st' new,
    visit_page Sites.three_pages 25 DEFAULT_SELECTOR 3 2
      (State Sites.three_pages "" ["https://www.filmweb.pl/film/2-0"] ∅ []) = inr st'
    ∧ collected _ st' = ["https://www.filmweb.pl/film/2-0"] ++ new
    ∧ length new = 9.
Proof.
  destruct (collected_only_grows Sites.three_pages 25 DEFAULT_SELECTOR 3 2
              (State Sites.three_pages "" ["https://www.filmweb.pl/film/2-0"] ∅ []))
    as [Hvisit _].
  destruct (Hvisit _ eq_refl) as (new & Hnew & _ & _).
  eexists _, new. split; [reflexivity|]. split; [exact Hnew|].
  apply (f_equal length) in Hnew. rewrite length_app in Hnew.
  match type of Hnew with
  | ?n = _ => let v := eval vm_compute in n in change n with v in Hnew
  end.
  cbn [length collected] in Hnew. lia.
Defined.

(** X4.  When the retry loop hands on fewer than ten elements it has used
    its whole budget: it made [max 0 (retries + 1)] passes, numbered from 0
    upwards without a gap. *)
Theorem short_result_uses_whole_budget (B : Browser) (selector : string)
    (retries page_num : Z) (w : World B) :
  let r := run_retry_loop B selector retries page_num w in
  length (rr_elements B r) < 10 →
  Z.of_nat (length (rr_attempts B r)) = Z.max 0 (retries + 1)
  ∧ (rr_attempts B r).*1 = seqZ 0 (Z.max 0 (retries + 1)).
Proof.
  intros r Hshort.
  assert (Hlen : length (rr_attempts B r) = Z.to_nat (retries + 1 - 0)).
  { apply retry_loop_exhausted; [lia | simpl; lia | exact Hshort]. }
  split; [lia|].
  unfold r, run_retry_loop. rewrite retry_loop_attempt_numbers.
  fold (run_retry_loop B selector retries page_num w). fold r.
  f_equal. lia.
Qed.

Lemma short_result_uses_whole_budget_witness :
  (rr_attempts _ (run_retry_loop Sites.bare_anchor DEFAULT_SELECTOR 2 1 "")).*1
  = [0; 1; 2]%Z.
Proof.
  destruct (short_result_uses_whole_budget Sites.bare_anchor DEFAULT_SELECTOR 2 1 "")
    as [_ Hnumbers]; [vm_compute; lia|].
  exact Hnumbers.
Defined.

(** X5.  [main] writes the combined file only when at least one link was
    collected and an output path was given: it then holds the header and one
    row per returned URL, without duplicates and no more than [count] of
    them, under the base name of the output path in the same [links/]
    directory as the page files (so it replaces a page file of that name),
    and every other file is as the collector left it.  When the base name
    is empty, a dot or two dots (an output path that ends in a slash, or
    whose last component is [.] or [..]) the path names a directory and
    [open] raises. *)
Theorem main_combined_file (B : Browser) (count start_page : Z)
    (output selector : string) (retries : Z) (fuel : nat) (w : World B)
    (links_dir : directory) (links : list string) (st : state B) :
  scrape_filmweb_links B count start_page selector retries fuel w links_dir
    = Some (links, st) →
  (links = [] ∨ output = "" →
     CollectorMain.main B count start_page output selector retries fuel w links_dir
     = Some (CollectorMain.Done (files B st)))
  ∧ (links ≠ [] → output ≠ "" →
     CollectorMain.basename output ∈ [""; "."; ".."] →
     CollectorMain.main B count start_page output selector retries fuel w links_dir
     = Some CollectorMain.Raised)
  ∧ (links ≠ [] → output ≠ "" →
     CollectorMain.basename output ∉ [""; "."; ".."] →
     ∃ files',
       CollectorMain.main B count start_page output selector retries fuel w links_dir
       = Some (CollectorMain.Done files')
       ∧ files' !! CollectorMain.basename output
         = Some (Csv (["url"] :: map (λ u, [u]) links))
       ∧ NoDup links ∧ (Z.of_nat (length links) ≤ count)%Z
       ∧ ∀ name, name ≠ CollectorMain.basename output →
           files' !! name = files B st !! name).
Proof.
  intros Hrun. unfold CollectorMain.main. rewrite Hrun. cbn [mbind option_bind].
  assert (Hdir : ∀ base_name,
            CollectorMain.names_directory base_name = true
            ↔ base_name ∈ [""; "."; ".."]).
  { intros base_name. unfold CollectorMain.names_directory.
    rewrite !orb_true_iff, !bool_decide_eq_true, !elem_of_cons, elem_of_nil.
    tauto. }
  split; [|split].
  - intros [-> | ->]; [done|]. by destruct links.
  - intros Hlinks Hout Hbase%Hdir. destruct links; [done|].
    destruct output; [done|]. cbn [PyStr.truthy]. cbv zeta. by rewrite Hbase.
  - intros Hlinks Hout Hbase. destruct links as [|u links'] eqn:Hl; [done|].
    rewrite <- Hl in *. destruct output as [|c output']; [done|].
    cbn [PyStr.truthy]. cbv zeta.
    destruct (CollectorMain.names_directory (CollectorMain.basename (String c output')))
      eqn:Hb; [by apply Hdir in Hb|].
    eexists. split; [by rewrite Hl|]. unfold CollectorMain.save_to_csv.
    split; [by rewrite lookup_insert_eq|].
    unfold scrape_filmweb_links in Hrun.
    destruct (collect_loop _ _ _ _ _ _ _) as [st'|] eqn:Hloop; [|done].
    injection Hrun as Hslice <-.
    assert (Hcount : (0 ≤ count)%Z).
    { destruct (Z.leb_spec 0 count) as [|Hneg]; [done|]. exfalso.
      apply collect_loop_nothing_to_do in Hloop; [|simpl; lia]. subst st'.
      cbn [collected] in Hslice.
      rewrite PyStrFacts.slice_to_nil in Hslice. congruence. }
    split; [|split].
    + rewrite <- Hslice. apply PyStrFacts.slice_to_NoDup.
      eapply collect_loop_NoDup; [|exact Hloop]. apply NoDup_nil_2.
    + rewrite <- Hslice. by apply PyStrFacts.slice_to_length.
    + intros name Hname. by rewrite lookup_insert_ne.
Qed.

Lemma main_combined_file_witness :
  (∃ files',
     CollectorMain.main Sites.three_pages 25 1 "out/links.csv" DEFAULT_SELECTOR 3
       10 "" ∅ = Some (CollectorMain.Done files')
     ∧ ∃ links, files' !! "links.csv" = Some (Csv (["url"] :: map (λ u, [u]) links))
         ∧ length links = 25)
  ∧ CollectorMain.main Sites.three_pages 25 1 "out/.." DEFAULT_SELECTOR 3
      10 "" ∅ = Some CollectorMain.Raised.
Proof.
  destruct (scrape_filmweb_links Sites.three_pages 25 1 DEFAULT_SELECTOR 3 10 "" ∅)
    as [[links st]|] eqn:Hrun; [|vm_compute in Hrun; discriminate Hrun].
  assert (Hlen : length links = 25).
  { vm_compute in Hrun. injection Hrun as <- _. reflexivity. }
  split.
  - destruct (main_combined_file Sites.three_pages 25 1 "out/links.csv"
                DEFAULT_SELECTOR 3 10 "" ∅ links st Hrun) as (_ & _ & Hwritten).
    destruct Hwritten as (files' & Hmain & Hfile & _).
    + intros ->. discriminate Hlen.
    + discriminate.
    + assert (Hbase : CollectorMain.basename "out/links.csv" = "links.csv")
        by (vm_compute; reflexivity).
      rewrite Hbase, !elem_of_cons, elem_of_nil.
      intros [H|[H|[H|[]]]]; discriminate H.
    + exists files'. split; [exact Hmain|]. exists links.
      split; [exact Hfile | exact Hlen].
  - destruct (main_combined_file Sites.three_pages 25 1 "out/.."
                DEFAULT_SELECTOR 3 10 "" ∅ links st Hrun) as (_ & Hraised & _).
    apply Hraised.
    + intros ->. discriminate Hlen.
    + discriminate.
    + assert (Hbase : CollectorMain.basename "out/.." = "..")
        by (vm_compute; reflexivity).
      rewrite Hbase, !elem_of_cons. right. right. by left.
Defined.

End CollectorExtras.

(** ** The detail enricher *)

Module EnricherMore.
Import Enricher EnricherFacts.

(** The characters of a string. *)
Lemma chars_rev_app (c : ascii) (s1 s2 : string) :
  c ∈ String.list_ascii_of_string (String.rev_app s1 s2)
  ↔ c ∈ String.list_ascii_of_string s1 ∨ c ∈ String.list_ascii_of_string s2.
Proof.
  revert s2. induction s1 as [|a s1 IH]; intros s2; cbn [String.rev_app].
  - cbn [String.list_ascii_of_string]. rewrite elem_of_nil. tauto.
  - rewrite IH. cbn [String.list_ascii_of_string]. rewrite !elem_of_cons. tauto.
Qed.

Lemma chars_rev (c : ascii) (s : string) :
  c ∈ String.list_ascii_of_string (String.rev s) ↔ c ∈ String.list_ascii_of_string s.
Proof.
  unfold String.rev. rewrite chars_rev_app. cbn [String.list_ascii_of_string].
  rewrite elem_of_nil. tauto.
Qed.

Lemma chars_lstrip (c : ascii) (s : string) :
  c ∈ String.list_ascii_of_string (PyStr.lstrip s) → c ∈ String.list_ascii_of_string s.
Proof.
  induction s as [|a s IH]; cbn [PyStr.lstrip]; [done|].
  destruct (PyStr.is_space a); [|done].
  intros H. cbn [String.list_ascii_of_string]. right. by apply IH.
Qed.

Lemma chars_strip (c : ascii) (s : string) :
  c ∈ String.list_ascii_of_string (PyStr.strip s) → c ∈ String.list_ascii_of_string s.
Proof.
  unfold PyStr.strip, PyStr.rstrip. rewrite chars_rev.
  intros H%chars_lstrip. rewrite chars_rev in H. by apply chars_lstrip.
Qed.

Lemma chars_replace_char (a b c : ascii) (s : string) :
  c ∈ String.list_ascii_of_string (PyStr.replace_char a b s) →
  c = b ∨ (c ≠ a ∧ c ∈ String.list_ascii_of_string s).
Proof.
  induction s as [|e s IH]; cbn [PyStr.replace_char String.list_ascii_of_string].
  - by intros H%elem_of_nil.
  - intros [->|H]%elem_of_cons.
    + case_bool_decide as Hae; [by left|]. right. split; [congruence | left].
    + destruct (IH H) as [->|[Hne Hin]]; [by left|]. right. split; [done | by right].
Qed.

Section Run.
Variable B : WebPage.

(** When no navigation to a listed link fails otherwise than by a timeout,
    only a page file that does not read stops the run. *)
Lemma scrape_pages_raises (links_dir : directory) (page_nums : list Z)
    (st : World B * directory) :
  (∀ p links url w0, p ∈ page_nums →
     read_links_for_page links_dir p = Some links → url ∈ links →
     goto_raises B url w0 = false) →
  scrape_pages B links_dir page_nums st = None →
  ∃ p, p ∈ page_nums ∧ links_dir !! links_file_name p = Some Unreadable.
Proof.
  revert st. induction page_nums as [|p page_nums IH]; intros st Hok;
    cbn [scrape_pages]; [done|].
  destruct (scrape_page B links_dir p st) as [st1|] eqn:Hp; cbn [mbind option_bind].
  - intros Hrest. destruct (IH st1) as (q & Hq & Hbad); [|exact Hrest|].
    + intros q links url w0 Hq. apply Hok. by right.
    + exists q. split; [by right | done].
  - intros _. exists p. split; [left|].
    destruct (read_links_for_page links_dir p) as [links|] eqn:Hread;
      [|by apply read_links_is_None].
    destruct (scrape_page_completes B links_dir p st links Hread) as [st1 Hst1];
      [|congruence].
    intros url w0 Hurl. eapply Hok; [left | exact Hread | exact Hurl].
Qed.

Lemma scrape_pages_skip (links_dir : directory) (page_nums : list Z)
    (st st' : World B * directory) (page_num : Z) :
  read_links_for_page links_dir page_num = Some [] →
  scrape_pages B links_dir page_nums st = Some st' →
  st'.2 !! out_file_name page_num = st.2 !! out_file_name page_num.
Proof.
  intros Hnone. revert st. induction page_nums as [|p page_nums IH]; intros st;
    cbn [scrape_pages]; [by intros [= <-]|].
  destruct (scrape_page B links_dir p st) as [st1|] eqn:Hp; [|done].
  cbn [mbind option_bind]. intros Hrun. rewrite (IH st1 Hrun).
  destruct (decide (p = page_num)) as [->|Hne].
  - unfold scrape_page in Hp. rewrite Hnone in Hp. by injection Hp as <-.
  - eapply scrape_page_frame; [exact Hp|]. by intros Heq%out_file_name_inj.
Qed.

(** The row of a link whose navigation times out wherever the browser is. *)
Lemma row_for_timeout (url : string) (r : row) :
  (∀ w0, (goto B url w0).2 = false) →
  row_for B url r → r = [url; ""; ""; ""].
Proof.
  intros Hdown (w & w' & Hrow). unfold scrape_link in Hrow.
  destruct (goto_raises B url w); [done|].
  specialize (Hdown w). destruct (goto B url w) as [w1 loaded].
  cbn [snd] in Hdown. subst loaded. cbn [negb] in Hrow. by injection Hrow as _ <-.
Qed.

(** Such a link has its blank row among the rows of its page. *)
Lemma rows_for_timeout (url : string) (links : list string) (rows : list row) :
  url ∈ links →
  (∀ w0, (goto B url w0).2 = false) →
  Forall2 (row_for B) links rows →
  [url; ""; ""; ""] ∈ rows.
Proof.
  intros Hin Hdown Hrows.
  induction Hrows as [|u r ls rs Hrow _ IH]; [by apply elem_of_nil in Hin|].
  apply elem_of_cons in Hin as [<-|Hin].
  - apply (row_for_timeout url r Hdown) in Hrow. subst r. left.
  - right. by apply IH.
Qed.

(** The description cell of a row is a single line. *)
Lemma scrape_link_description (url : string) (w w' : World B) (r : row)
    (c : ascii) :
  c = "010"%char ∨ c = "013"%char →
  scrape_link B url w = Some (w', r) →
  ∃ title genres desc,
    r = [url; title; genres; desc]
    ∧ c ∉ String.list_ascii_of_string desc.
Proof.
  intros Hc. unfold scrape_link.
  assert (Hempty : c ∉ String.list_ascii_of_string "") by apply not_elem_of_nil.
  destruct (goto_raises B url w); [done|].
  destruct (goto B url w) as [w1 [|]]; cbn [negb];
    [|intros [= _ <-]; by eexists _, _, _].
  destruct (query_selector B TITLE_SELECTOR w1) as [w2 el].
  destruct (query_selector_all B GENRE_SELECTOR w2) as [w3 genre_els].
  destruct (goto_raises B _ w3), (goto B _ w3) as [w4 [|]]; cbn [orb negb];
    try (intros [= _ <-]; by eexists _, _, _).
  destruct (query_selector B DESC_SELECTOR w4) as [w5 desc_el].
  intros [= _ <-]. eexists _, _, _. split; [reflexivity|].
  intros H%chars_strip.
  apply chars_replace_char in H as [->|[Hcr H]]; [by destruct Hc|].
  apply chars_replace_char in H as [->|[Hlf H]]; [by destruct Hc|].
  by destruct Hc.
Qed.

End Run.

End EnricherMore.

Module EnricherExtras.
Import Enricher EnricherFacts EnricherMore.

(** X6.  A run over a range of pages touches no file but the result files
    of the pages of the range: any other file of the output directory, the
    result file of any page outside the range, and the result file of any
    page whose page file yields no link are as they were. *)
Theorem scrape_range_leaves_other_files (B : WebPage) (links_dir : directory)
    (start end_ : Z) (st st' : World B * directory) :
  scrape_range B links_dir start end_ st = Some st' →
  (∀ name, (∀ p, (start ≤ p ≤ end_)%Z → name ≠ out_file_name p) →
     st'.2 !! name = st.2 !! name)
  ∧ (∀ p, (p < start ∨ end_ < p)%Z →
       st'.2 !! out_file_name p = st.2 !! out_file_name p)
  ∧ (∀ p, read_links_for_page links_dir p = Some [] →
       st'.2 !! out_file_name p = st.2 !! out_file_name p).
Proof.
  unfold scrape_range. intros Hrun.
  assert (Hframe : ∀ name, (∀ p, (start ≤ p ≤ end_)%Z → name ≠ out_file_name p) →
                           st'.2 !! name = st.2 !! name).
  { intros name Hname. eapply scrape_pages_frame; [exact Hrun|].
    intros p Hp%elem_of_seqZ. apply Hname. lia. }
  split; [exact Hframe|]. split.
  - intros p Hp. apply Hframe. intros q Hq Heq%out_file_name_inj. lia.
  - intros p Hnone. eapply scrape_pages_skip; [exact Hnone | exact Hrun].
Qed.

Lemma scrape_range_leaves_other_files_witness :
  ∃ st',
    scrape_range Sites.two_films Sites.two_film_links 2 5 ("", Sites.stale_results)
      = Some st'
    ∧ st'.2 !! out_file_name 1 = Sites.stale_results !! out_file_name 1.
Proof.
  destruct (scrape_range Sites.two_films Sites.two_film_links 2 5
              ("", Sites.stale_results)) as [st'|] eqn:Hrun;
    [|vm_compute in Hrun; discriminate Hrun].
  exists st'. split; [reflexivity|].
  destruct (scrape_range_leaves_other_files _ _ _ _ _ _ Hrun) as (_ & Houtside & _).
  apply Houtside. lia.
Defined.

(** X8.  A page file of the range that exists but does not read cuts the
    run short; and when no navigation to a listed link fails otherwise than
    by a timeout, that is the only way: the run is cut short by an
    exception exactly when the page file of some page of the range does not
    read, so that an absent page file, a page file without links and a link
    that times out never stop it. *)
Theorem scrape_range_raises_iff (B : WebPage) (links_dir : directory)
    (start end_ : Z) (st : World B * directory) :
  ((∃ p, (start ≤ p ≤ end_)%Z
      ∧ links_dir !! links_file_name p = Some Unreadable) →
   scrape_range B links_dir start end_ st = None)
  ∧ ((∀ p links url w0, (start ≤ p ≤ end_)%Z →
        read_links_for_page links_dir p = Some links → url ∈ links →
        goto_raises B url w0 = false) →
     (scrape_range B links_dir start end_ st = None
      ↔ ∃ p, (start ≤ p ≤ end_)%Z
          ∧ links_dir !! links_file_name p = Some Unreadable)).
Proof.
  assert (Hif : (∃ p, (start ≤ p ≤ end_)%Z
                   ∧ links_dir !! links_file_name p = Some Unreadable) →
                scrape_range B links_dir start end_ st = None).
  { intros (p & Hp & Hbad). unfold scrape_range.
    eapply scrape_pages_unreadable; [|exact Hbad]. by apply elem_of_range. }
  split; [exact Hif|]. intros Hok. split; [|exact Hif].
  unfold scrape_range. intros Hrun.
  destruct (scrape_pages_raises B links_dir (seqZ start (end_ + 1 - start)) st)
    as (p & Hp%elem_of_range & Hbad); [|exact Hrun|].
  - intros q links url w0 Hq%elem_of_range. by apply Hok.
  - by exists p.
Qed.

Lemma scrape_range_raises_iff_witness :
  scrape_range Sites.two_films Sites.unreadable_then_film 1 2 ("", ∅) = None
  ∧ (scrape_range Sites.two_films Sites.two_film_links 1 2 ("", ∅) = None
     ↔ ∃ p, (1 ≤ p ≤ 2)%Z
         ∧ Sites.two_film_links !! links_file_name p = Some Unreadable).
Proof.
  split.
  - destruct (scrape_range_raises_iff Sites.two_films Sites.unreadable_then_film
                1 2 ("", ∅)) as [Hif _].
    apply Hif. exists 1%Z. split; [lia | reflexivity].
  - destruct (scrape_range_raises_iff Sites.two_films Sites.two_film_links
                1 2 ("", ∅)) as [_ Hiff].
    apply Hiff. reflexivity.
Defined.

(** X9.  The description cell of every row is a single line: it holds
    neither a line feed nor a carriage return. *)
Theorem description_is_one_line (B : WebPage) (url : string) (w w' : World B)
    (r : row) :
  scrape_link B url w = Some (w', r) →
  ∃ title genres desc,
    r = [url; title; genres; desc]
    ∧ ∀ c, c ∈ String.list_ascii_of_string desc →
        c ≠ "010"%char ∧ c ≠ "013"%char.
Proof.
  intros Hrow.
  destruct (scrape_link_description B url w w' r "010"%char) as (t & g & d & Hr & Hlf);
    [by left | exact Hrow |].
  destruct (scrape_link_description B url w w' r "013"%char)
    as (t' & g' & d' & Hr' & Hcr); [by right | exact Hrow |].
  rewrite Hr in Hr'. injection Hr' as <- <- <-.
  exists t, g, d. split; [done|]. intros c Hc. split; by intros ->.
Qed.

Lemma description_is_one_line_witness :
  ∃ title genres desc,
    [Sites.film_b; "Rejs"; "Komedia;Satyra"; ""] = [Sites.film_b; title; genres; desc]
    ∧ ∀ c, c ∈ String.list_ascii_of_string desc →
        c ≠ "010"%char ∧ c ≠ "013"%char.
Proof.
  apply (description_is_one_line Sites.two_films Sites.film_b ""
           "https://www.filmweb.pl/film/Rejs-1970/descs").
  reflexivity.
Defined.

End EnricherExtras.

(** ** The gap finder *)

Module GapFinderMore.
Import GapFinder GapSpec GapFinderFacts.

Lemma str_app_assoc (s1 s2 s3 : string) : (s1 +:+ s2) +:+ s3 = s1 +:+ (s2 +:+ s3).
Proof.
  induction s1 as [|c s1 IH]; [done|].
  change (String c ((s1 +:+ s2) +:+ s3) = String c (s1 +:+ (s2 +:+ s3))).
  by rewrite IH.
Qed.

Lemma str_app_nil_r (s : string) : s +:+ "" = s.
Proof.
  induction s as [|c s IH]; [done|].
  change (String c (s +:+ "") = String c s). by rewrite IH.
Qed.

Lemma str_rev_app_app (s1 s2 : string) : String.rev_app s1 s2 = String.rev s1 +:+ s2.
Proof.
  unfold String.rev. revert s2.
  induction s1 as [|c s1 IH]; intros s2; cbn [String.rev_app]; [done|].
  rewrite (IH (String c s2)), (IH (String c "")). by rewrite str_app_assoc.
Qed.

Lemma str_rev_cons (c : ascii) (s : string) :
  String.rev (String c s) = String.rev s +:+ String c "".
Proof. unfold String.rev at 1. cbn [String.rev_app]. apply str_rev_app_app. Qed.

Lemma str_rev_app (s1 s2 : string) :
  String.rev (s1 +:+ s2) = String.rev s2 +:+ String.rev s1.
Proof.
  induction s1 as [|c s1 IH].
  - change (String.rev s2 = String.rev s2 +:+ ""). by rewrite str_app_nil_r.
  - change (String.rev (String c (s1 +:+ s2))
            = String.rev s2 +:+ String.rev (String c s1)).
    by rewrite !str_rev_cons, IH, str_app_assoc.
Qed.

Lemma str_rev_involutive (s : string) : String.rev (String.rev s) = s.
Proof.
  induction s as [|c s IH]; [done|].
  rewrite str_rev_cons, str_rev_app, IH. done.
Qed.

Lemma digit_value_nonneg (c : ascii) : is_digit c = true → (0 ≤ digit_value c)%Z.
Proof.
  unfold is_digit, digit_value. intros [H _]%andb_true_iff.
  apply Nat.leb_le in H. lia.
Qed.

Lemma int_of_span_digits_nonneg (s : string) :
  (0 ≤ int_of_rev_digits (span_digits s).1)%Z.
Proof.
  induction s as [|c s IH]; cbn [span_digits]; [done|].
  destruct (is_digit c) eqn:Hc; [|done].
  destruct (span_digits s) as [ds rest]. cbn [fst int_of_rev_digits] in *.
  pose proof (digit_value_nonneg c Hc). lia.
Qed.

Lemma pretty_N_char_digit (x : N) :
  (x < 10)%N →
  is_digit (pretty_N_char x) = true ∧ digit_value (pretty_N_char x) = Z.of_N x.
Proof.
  intros Hx.
  assert (x = 0 ∨ x = 1 ∨ x = 2 ∨ x = 3 ∨ x = 4 ∨ x = 5 ∨ x = 6 ∨ x = 7
          ∨ x = 8 ∨ x = 9)%N as Hcases by lia.
  repeat (destruct Hcases as [->|Hcases]; [by vm_compute|]). by subst.
Qed.

(** The decimal digits [pretty] prints, last digit first. *)
Lemma pretty_N_go_digits (x : N) :
  ∃ ds, (∀ s, pretty_N_go x s = String.rev ds +:+ s)
        ∧ int_of_rev_digits ds = Z.of_N x
        ∧ (∀ t, span_digits t = ("", t) → span_digits (ds +:+ t) = (ds, t))
        ∧ ((0 < x)%N → ds ≠ "").
Proof.
  induction (N.lt_wf_0 x) as [x _ IH].
  destruct (decide (x = 0%N)) as [->|Hx].
  - exists "". split; [intros s; by rewrite pretty_N_go_0|].
    split; [done|]. split; [done | lia].
  - destruct (IH (x `div` 10)%N) as (ds & Hgo & Hint & Hspan & _).
    { apply N.div_lt; lia. }
    destruct (pretty_N_char_digit (x `mod` 10)%N) as [Hdigit Hvalue].
    { apply N.mod_lt. lia. }
    exists (String (pretty_N_char (x `mod` 10)) ds).
    split; [|split; [|split]].
    + intros s. rewrite pretty_N_go_step by lia. rewrite Hgo, str_rev_cons.
      by rewrite str_app_assoc.
    + cbn [int_of_rev_digits]. rewrite Hint, Hvalue.
      pose proof (N.div_mod x 10 ltac:(lia)). lia.
    + intros t Ht.
      change (span_digits (String (pretty_N_char (x `mod` 10)) (ds +:+ t))
              = (String (pretty_N_char (x `mod` 10)) ds, t)).
      cbn [span_digits]. by rewrite Hdigit, (Hspan t Ht).
    + done.
Qed.

Lemma pretty_Z_digits (n : Z) :
  (0 ≤ n)%Z →
  ∃ ds, pretty n = String.rev ds
        ∧ int_of_rev_digits ds = n
        ∧ (∀ t, span_digits t = ("", t) → span_digits (ds +:+ t) = (ds, t))
        ∧ ds ≠ "".
Proof.
  intros Hn. destruct n as [|p|p]; [|clear Hn|lia].
  - exists "0". split; [done|]. split; [done|]. split; [|done].
    intros t Ht. change (span_digits (String "0" t) = ("0", t)).
    cbn [span_digits]. change (is_digit "0") with true. cbv iota. by rewrite Ht.
  - destruct (pretty_N_go_digits (N.pos p)) as (ds & Hgo & Hint & Hspan & Hne).
    exists ds. split; [|split; [|split]].
    + change (pretty (Z.pos p)) with (pretty_N_go (N.pos p) "").
      by rewrite Hgo, str_app_nil_r.
    + by rewrite Hint.
    + done.
    + apply Hne. lia.
Qed.

Lemma strip_prefix_app (p s : string) : strip_prefix p (p +:+ s) = Some s.
Proof.
  induction p as [|c p IH]; [done|].
  change (strip_prefix (String c p) (String c (p +:+ s)) = Some s).
  cbn [strip_prefix]. by rewrite bool_decide_eq_true_2.
Qed.

(** The name the enricher gives the result file of a page is read back as
    that page's number when the number is not negative, and is not
    recognised at all when it is. *)
Lemma page_of_out_file_name (n : Z) :
  page_of_name (Enricher.out_file_name n)
  = if bool_decide (0 ≤ n)%Z then Some n else None.
Proof.
  unfold page_of_name, Enricher.out_file_name.
  assert (Hnondigit : ∀ t, span_digits (String "e" t) = ("", String "e" t)) by done.
  case_bool_decide as Hn.
  - destruct (pretty_Z_digits n Hn) as (ds & -> & Hint & Hspan & Hne).
    rewrite !str_rev_app, str_rev_involutive, !str_app_assoc.
    change (String.rev ".csv") with "vsc.".
    change (String.rev "data_page") with "egap_atad".
    change ("vsc." +:+ ds +:+ "egap_atad")
      with (String "v" ("sc." +:+ ds +:+ "egap_atad")) at 1.
    cbv iota beta.
    change (String "v" ("sc." +:+ ds +:+ "egap_atad"))
      with ("vsc." +:+ ds +:+ "egap_atad").
    rewrite strip_prefix_app. cbn [mbind option_bind].
    rewrite (Hspan "egap_atad") by apply Hnondigit.
    destruct ds as [|d ds]; [done|].
    change "egap_atad" with ("egap_atad" +:+ "") at 2.
    rewrite strip_prefix_app. cbn [mbind option_bind]. by rewrite Hint.
  - destruct n as [|p|p]; [lia..|].
    destruct (pretty_Z_digits (Z.pos p)) as (ds & Hp & Hint & Hspan & Hne); [lia|].
    change (pretty (Z.neg p)) with ("-" +:+ pretty (Z.pos p)). rewrite Hp.
    rewrite !str_rev_app, str_rev_involutive, !str_app_assoc.
    change (String.rev ".csv") with "vsc.".
    change (String.rev "data_page") with "egap_atad".
    change (String.rev "-") with "-".
    change ("vsc." +:+ ds +:+ "-" +:+ "egap_atad")
      with (String "v" ("sc." +:+ ds +:+ "-egap_atad")) at 1.
    cbv iota beta.
    change (String "v" ("sc." +:+ ds +:+ "-egap_atad"))
      with ("vsc." +:+ ds +:+ "-egap_atad").
    rewrite strip_prefix_app. cbn [mbind option_bind].
    rewrite (Hspan ("-" +:+ "egap_atad")) by done.
    by destruct ds as [|d ds].
Qed.

Lemma find_pages_spec (d : directory) :
  ∃ pages, find_pages_with_missing (Some d) = Some pages
    ∧ ∀ p, p ∈ pages ↔
        ∃ name nd, d !! name = Some nd
          ∧ page_of_name name = Some p ∧ incomplete nd.
Proof.
  cbn [find_pages_with_missing].
  destruct (scan_entries_spec (map_to_list d) ∅) as (pages & -> & Hpages).
  exists pages. split; [done|]. intros p. rewrite Hpages. split.
  - intros [Hp|(name & nd & Hin & Hrest)]; [by apply elem_of_empty in Hp|].
    exists name, nd. split; [by apply elem_of_map_to_list | done].
  - intros (name & nd & Hin & Hrest). right.
    exists name, nd. split; [by apply elem_of_map_to_list | done].
Qed.

(** The header the enricher writes has the three columns at positions 1, 2
    and 3. *)
Lemma enricher_header_columns :
  idx_map Enricher.HEADER !! "title" = Some 1
  ∧ idx_map Enricher.HEADER !! "genres" = Some 2
  ∧ idx_map Enricher.HEADER !! "description" = Some 3.
Proof. split; [|split]; vm_compute; reflexivity. Qed.

Lemma enricher_file_incomplete (results : list row) :
  incomplete (Csv (Enricher.HEADER :: results))
  ↔ results = [] ∨ ∃ r, r ∈ results ∧ row_incomplete 1 2 3 r.
Proof.
  destruct enricher_header_columns as (Ht & Hg & Hd).
  apply idx_map_lookup in Ht, Hg, Hd.
  unfold incomplete. cbn [incomplete_for]. split.
  - intros [Hlen|(header & data & [= <- <-] & H)].
    { left. destruct results; [done | simpl in Hlen; lia]. }
    destruct H as [H|[H|[H|H]]].
    + exfalso. apply H. eapply list_elem_of_lookup_2, Ht.
    + exfalso. apply H. eapply list_elem_of_lookup_2, Hg.
    + exfalso. apply H. eapply list_elem_of_lookup_2, Hd.
    + destruct H as (ti & gi & di & r & Hti & Hgi & Hdi & Hr & Hinc).
      apply idx_map_lookup in Hti, Hgi, Hdi.
      destruct enricher_header_columns as (Ht' & Hg' & Hd').
      rewrite Ht' in Hti. rewrite Hg' in Hgi. rewrite Hd' in Hdi.
      injection Hti as <-. injection Hgi as <-. injection Hdi as <-.
      right. by exists r.
  - intros [->|(r & Hr & Hinc)]; [left; simpl; lia|].
    right. exists Enricher.HEADER, results. split; [done|]. do 3 right.
    by exists 1, 2, 3, r.
Qed.

End GapFinderMore.

Module GapFinderExtras.
Import GapFinder GapSpec GapFinderFacts GapFinderMore.

(** X10.  The name the enricher gives the result file of a page is read
    back by the gap finder as that page's number when the number is not
    negative; the result file of a negative page number is not recognised
    as a result file at all. *)
Theorem result_file_name_round_trip (n : Z) :
  ((0 ≤ n)%Z → page_of_name (Enricher.out_file_name n) = Some n)
  ∧ ((n < 0)%Z → page_of_name (Enricher.out_file_name n) = None).
Proof.
  rewrite page_of_out_file_name. split; intros Hn.
  - by rewrite bool_decide_eq_true_2.
  - by rewrite bool_decide_eq_false_2 by lia.
Qed.

Lemma result_file_name_round_trip_witness :
  page_of_name "data_page1000.csv" = Some 1000%Z
  ∧ page_of_name "data_page-3.csv" = None.
Proof.
  split.
  - destruct (result_file_name_round_trip 1000) as [Hpos _]. apply Hpos. lia.
  - destruct (result_file_name_round_trip (-3)) as [_ Hneg]. apply Hneg. lia.
Defined.

(** X11.  A page number read off a file name is never negative, so the
    gap finder never flags a negative page number. *)
Theorem flagged_pages_not_negative (name : string) (p : Z)
    (out_dir : option directory) (pages : gset Z) :
  (page_of_name name = Some p → (0 ≤ p)%Z)
  ∧ (find_pages_with_missing out_dir = Some pages → p ∈ pages → (0 ≤ p)%Z).
Proof.
  assert (Hname : ∀ nm q, page_of_name nm = Some q → (0 ≤ q)%Z).
  { intros nm q. unfold page_of_name.
    destruct (strip_prefix "vsc." _) as [rest|]; [|done]. cbn [mbind option_bind].
    pose proof (int_of_span_digits_nonneg rest) as Hnonneg.
    destruct (span_digits rest) as [ds rest']. cbn [fst] in Hnonneg.
    destruct ds as [|d ds]; [done|].
    destruct (strip_prefix "egap_atad" rest'); [|done].
    cbn [mbind option_bind]. by intros [= <-]. }
  split; [apply Hname|].
  destruct out_dir as [d|].
  - destruct (find_pages_spec d) as (pages' & -> & Hpages).
    intros [= <-] (nm & nd & _ & Hnm & _)%Hpages. by eapply Hname.
  - intros [= <-] Hp. by apply elem_of_empty in Hp.
Qed.

Lemma flagged_pages_not_negative_witness :
  page_of_name "data_page1.csv" = Some 1%Z ∧ (0 ≤ 1)%Z.
Proof.
  assert (Hname : page_of_name "data_page1.csv" = Some 1%Z)
    by (vm_compute; reflexivity).
  split; [exact Hname|].
  destruct (flagged_pages_not_negative "data_page1.csv" 1
              (Some Sites.blank_title) {[1%Z]}) as [Hnonneg _].
  apply Hnonneg. exact Hname.
Defined.

(** X12.  A file whose name is not that of a result file has no bearing on
    the result: adding it to the directory, whatever it holds, changes
    nothing. *)
Theorem other_files_are_ignored (d : directory) (name : string) (nd : node) :
  page_of_name name = None →
  find_pages_with_missing (Some (<[name := nd]> d))
  = find_pages_with_missing (Some d).
Proof.
  intros Hname.
  destruct (find_pages_spec (<[name := nd]> d)) as (pages1 & -> & H1).
  destruct (find_pages_spec d) as (pages2 & -> & H2).
  f_equal. apply set_eq. intros p. rewrite H1, H2. split.
  - intros (nm & nd' & Hlook & Hnm & Hinc). exists nm, nd'.
    split; [|done]. rewrite lookup_insert_ne in Hlook; [done|].
    intros <-. congruence.
  - intros (nm & nd' & Hlook & Hnm & Hinc). exists nm, nd'.
    split; [|done]. rewrite lookup_insert_ne; [done|].
    intros <-. congruence.
Qed.

Lemma other_files_are_ignored_witness :
  find_pages_with_missing (Some (<["notes.txt" := Unreadable]> Sites.blank_title))
  = find_pages_with_missing (Some Sites.blank_title).
Proof. apply other_files_are_ignored. vm_compute. reflexivity. Defined.

(** X13.  [run_scrape_for_pages] builds one command line per page of the
    set, in ascending order of the page numbers and without repetition, and
    the command line of a page starts and ends the range at that page. *)
Theorem one_command_per_page (executable : string) (pages : gset Z)
    (script : string) (headed : bool) (link_retries : Z)
    (link_retry_wait : string) :
  ∃ ps,
    run_scrape_for_pages executable pages script headed link_retries link_retry_wait
    = scrape_cmd executable script headed link_retries link_retry_wait <$> ps
    ∧ Sorted Z.le ps ∧ NoDup ps
    ∧ (∀ p, p ∈ ps ↔ p ∈ pages)
    ∧ length ps = size pages
    ∧ ∀ p, take 6 (scrape_cmd executable script headed link_retries
                     link_retry_wait p)
           = [executable; script; "--start"; pretty p; "--end"; pretty p].
Proof.
  exists (sorted_pages pages). unfold run_scrape_for_pages, sorted_pages.
  assert (Hperm : merge_sort Z.le (elements pages) ≡ₚ elements pages)
    by apply merge_sort_Permutation.
  split; [done|]. split; [apply (Sorted_merge_sort Z.le)|].
  split; [rewrite Hperm; apply NoDup_elements|].
  split; [intros p; by rewrite Hperm, elem_of_elements|].
  split; [by rewrite Hperm|]. done.
Qed.

(** X14.  The dictionary of column positions has a name as key exactly when
    some column of the header bears it (trimmed, in lower case), and maps
    it to the position of the last column that does: of two columns with
    the same name the later one is the one the rows are read at. *)
Theorem column_position_is_last (header : row) (c : string) :
  (idx_map header !! c = None ↔ c ∉ column_names header)
  ∧ (∀ i, idx_map header !! c = Some i
       ↔ column_names header !! i = Some c
         ∧ ∀ j, i < j → column_names header !! j ≠ Some c).
Proof. apply idx_map_lookup. Qed.

(** X15.  A result file as the enricher writes it, with its own header, is
    judged by its records alone: it is flagged exactly when it has no
    record, or some record has an empty title, genres or description
    (after trimming) or a marker in its title or description.  A record of
    a link whose navigation timed out is such a record. *)
Theorem enricher_file_flagged_iff (results : list row) :
  ∃ b, file_has_missing (Csv (Enricher.HEADER :: results)) = Some b
    ∧ (b = true ↔ results = [] ∨ ∃ r, r ∈ results ∧ row_incomplete 1 2 3 r)
    ∧ ((∃ url, [url; ""; ""; ""] ∈ results) → b = true).
Proof.
  destruct (file_has_missing_spec (Csv (Enricher.HEADER :: results)))
    as (b & Hb & Hiff).
  rewrite enricher_file_incomplete in Hiff.
  exists b. split; [done|]. split; [done|].
  intros (url & Hurl). apply Hiff. right. exists [url; ""; ""; ""].
  split; [done|]. by left.
Qed.

Lemma enricher_file_flagged_iff_witness :
  file_has_missing
    (Csv [Enricher.HEADER; ["u1"; "Ida"; "Dramat"; "Anna."]; ["u2"; ""; ""; ""]])
  = Some true.
Proof.
  destruct (enricher_file_flagged_iff
              [["u1"; "Ida"; "Dramat"; "Anna."]; ["u2"; ""; ""; ""]])
    as (b & Hb & _ & Htimeout).
  rewrite Hb. f_equal. apply Htimeout. exists "u2". right. left.
Defined.

End GapFinderExtras.

(** ** The completeness verifier *)

Module VerifierMore.
Import Verifier VerifierSpec VerifierFacts.

(** The two loops look a directory up at the expected names only. *)
Lemma missing_fold_ext (d1 d2 : directory) (l : list Z) (acc : list string) :
  (∀ i, i ∈ l → d1 !! fname i = d2 !! fname i) →
  fold_left (missing_step d1) l acc = fold_left (missing_step d2) l acc.
Proof.
  revert acc. induction l as [|i l IH]; intros acc Hext; cbn [fold_left]; [done|].
  assert (Hi : missing_step d1 acc i = missing_step d2 acc i).
  { unfold missing_step, isfile. by rewrite (Hext i) by left. }
  rewrite Hi. apply IH. intros j Hj. apply Hext. by right.
Qed.

Lemma inspect_fold_ext (d1 d2 : directory) (l : list Z) (rep : report) :
  (∀ i, i ∈ l → d1 !! fname i = d2 !! fname i) →
  fold_left (inspect_step d1) l rep = fold_left (inspect_step d2) l rep.
Proof.
  revert rep. induction l as [|i l IH]; intros rep Hext; cbn [fold_left]; [done|].
  assert (Hi : inspect_step d1 rep i = inspect_step d2 rep i).
  { unfold inspect_step, isfile, read_csv. by rewrite (Hext i) by left. }
  rewrite Hi. apply IH. intros j Hj. apply Hext. by right.
Qed.

(** The list of missing files, exactly. *)
Lemma missing_fold_filter (d : directory) (l : list Z) (acc : list string) :
  fold_left (missing_step d) l acc
  = acc ++ (fname <$> filter (λ i, d !! fname i = None) l).
Proof.
  revert acc. induction l as [|i l IH]; intros acc; cbn [fold_left].
  - by rewrite filter_nil, app_nil_r.
  - rewrite IH. unfold missing_step, isfile.
    destruct (d !! fname i) as [nd|] eqn:Hi; cbn [negb].
    + by rewrite filter_cons_False by (by rewrite Hi).
    + rewrite filter_cons_True by done. by rewrite fmap_cons, <- app_assoc.
Qed.

(** The three lists of the second loop, by membership. *)
Lemma inspect_fold_elem_of (d : directory) (l : list Z) (rep : report) :
  let rep' := fold_left (inspect_step d) l rep in
  (∀ n, n ∈ problems rep'
     ↔ n ∈ problems rep ∨ ∃ i, i ∈ l ∧ n = fname i ∧ is_unreadable d i)
  ∧ (∀ n, n ∈ bad_header rep'
     ↔ n ∈ bad_header rep ∨ ∃ i, i ∈ l ∧ n = fname i ∧ has_bad_header d i)
  ∧ (∀ n k, (n, k) ∈ short_files rep'
     ↔ (n, k) ∈ short_files rep
       ∨ ∃ i, i ∈ l ∧ n = fname i
           ∧ (d !! fname i = Some (Csv []) ∧ k = 0
              ∨ ∃ header data_rows,
                  d !! fname i = Some (Csv (header :: data_rows))
                  ∧ k = data_count data_rows
                  ∧ k < EXPECTED_ROWS_PER_FILE)).
Proof.
  revert rep. induction l as [|i l IH]; intros rep; cbn [fold_left]; cbv zeta.
  { split; [|split]; intros; (split; [by left|]);
      (intros [H|(i & Hi & _)]; [done | by apply elem_of_nil in Hi]). }
  destruct (IH (inspect_step d rep i)) as (IHp & IHb & IHs). cbv zeta in IHp, IHb, IHs.
  clear IH.
  assert (Hkeep : ∀ (X : Prop) (P : Z → Prop),
    ¬ P i → (X ∨ (∃ j, j ∈ l ∧ P j)) ↔ (X ∨ ∃ j, j ∈ i :: l ∧ P j)).
  { intros X P Hi. split.
    - intros [HX|(j & Hj & HP)]; [by left|]. right. exists j. split; [by right | done].
    - intros [HX|(j & [->|Hj]%elem_of_cons & HP)]; [by left | done |].
      right. by exists j. }
  assert (Hadd : ∀ {A} (acc : list A) (x y : A) (P : Z → Prop),
    (P i ↔ y = x) →
    (y ∈ acc ++ [x] ∨ (∃ j, j ∈ l ∧ P j)) ↔ (y ∈ acc ∨ ∃ j, j ∈ i :: l ∧ P j)).
  { intros A acc x y P Hi. rewrite elem_of_app, list_elem_of_singleton. split.
    - intros [[Hy|Hy]|(j & Hj & HP)]; [by left| |].
      + right. exists i. split; [left | by apply Hi].
      + right. exists j. split; [by right | done].
    - intros [Hy|(j & [->|Hj]%elem_of_cons & HP)]; [by left; left| |].
      + left. right. by apply Hi.
      + right. by exists j. }
  split; [|split].
  - intros n. rewrite IHp. unfold inspect_step, isfile, read_csv, is_unreadable.
    destruct (d !! fname i) as [[|[|header data_rows]]|] eqn:Hi;
      cbn [negb problems].
    + apply (Hadd _ _ _ _ (λ j, n = fname j ∧ d !! fname j = Some Unreadable)).
      split; [by intros [-> _] | by intros ->].
    + apply (Hkeep _ (λ j, n = fname j ∧ d !! fname j = Some Unreadable)).
      intros [_ H]. congruence.
    + apply (Hkeep _ (λ j, n = fname j ∧ d !! fname j = Some Unreadable)).
      intros [_ H]. congruence.
    + apply (Hkeep _ (λ j, n = fname j ∧ d !! fname j = Some Unreadable)).
      intros [_ H]. congruence.
  - intros n. rewrite IHb. unfold inspect_step, isfile, read_csv, has_bad_header.
    destruct (d !! fname i) as [[|[|header data_rows]]|] eqn:Hi;
      cbn [negb bad_header].
    + apply (Hkeep _ (λ j, n = fname j ∧ ∃ h dr, d !! fname j = Some (Csv (h :: dr))
                                            ∧ header_is_bad h = true)).
      intros [_ (h & dr & H & _)]. congruence.
    + apply (Hkeep _ (λ j, n = fname j ∧ ∃ h dr, d !! fname j = Some (Csv (h :: dr))
                                            ∧ header_is_bad h = true)).
      intros [_ (h & dr & H & _)]. congruence.
    + destruct (header_is_bad header) eqn:Hbad.
      * apply (Hadd _ _ _ _ (λ j, n = fname j ∧ ∃ h dr,
                  d !! fname j = Some (Csv (h :: dr)) ∧ header_is_bad h = true)).
        split; [by intros [-> _]|]. intros ->. split; [done|].
        by exists header, data_rows.
      * apply (Hkeep _ (λ j, n = fname j ∧ ∃ h dr,
                  d !! fname j = Some (Csv (h :: dr)) ∧ header_is_bad h = true)).
        intros [_ (h & dr & H & Hb)]. rewrite Hi in H. injection H as <- <-.
        congruence.
    + apply (Hkeep _ (λ j, n = fname j ∧ ∃ h dr, d !! fname j = Some (Csv (h :: dr))
                                            ∧ header_is_bad h = true)).
      intros [_ (h & dr & H & _)]. congruence.
  - intros n k. rewrite IHs. unfold inspect_step, isfile, read_csv.
    set (P := λ j, n = fname j
                   ∧ (d !! fname j = Some (Csv []) ∧ k = 0
                      ∨ ∃ header data_rows,
                          d !! fname j = Some (Csv (header :: data_rows))
                          ∧ k = data_count data_rows
                          ∧ k < EXPECTED_ROWS_PER_FILE)).
    destruct (d !! fname i) as [[|[|header data_rows]]|] eqn:Hi;
      cbn [negb short_files].
    + apply (Hkeep _ P). unfold P. rewrite Hi.
      intros [_ [[H _]|(h & dr & H & _)]]; congruence.
    + apply (Hadd _ _ _ _ P). unfold P. rewrite Hi. split.
      * intros [-> [[_ ->]|(h & dr & H & _)]]; [done | congruence].
      * intros [= -> ->]. split; [done|]. by left.
    + fold (data_count data_rows).
      destruct (Nat.ltb_spec (data_count data_rows) EXPECTED_ROWS_PER_FILE)
        as [Hlt|Hge].
      * apply (Hadd _ _ _ _ P). unfold P. rewrite Hi. split.
        -- intros [-> [[H _]|(h & dr & H & -> & _)]]; [congruence|].
           by injection H as <- <-.
        -- intros [= -> ->]. split; [done|]. right. by exists header, data_rows.
      * apply (Hkeep _ P). unfold P. rewrite Hi.
        intros [_ [[H _]|(h & dr & H & -> & Hlt)]]; [congruence|].
        injection H as <- <-. lia.
    + apply (Hkeep _ P). unfold P. rewrite Hi.
      intros [_ [[H _]|(h & dr & H & _)]]; congruence.
Qed.

End VerifierMore.

Module VerifierExtras.
Import Verifier VerifierSpec VerifierFacts VerifierMore.

(** X16.  The verifier passes (exit status 0) exactly when every expected
    page file is there, reads, has a first header cell that is [url] once
    trimmed and put in lower case, and has at least ten non-blank data
    rows; more than ten rows are not a problem. *)
Theorem verify_passes_iff (d : directory) :
  verify (Some d) = 0%Z
  ↔ ∀ i, expected i →
      ∃ header data_rows,
        d !! fname i = Some (Csv (header :: data_rows))
        ∧ header_is_bad header = false
        ∧ EXPECTED_ROWS_PER_FILE ≤ data_count data_rows.
Proof.
  pose proof (inspect_fold d expected_pages (Report [] [] [])) as (Hb & Hs & Hp).
  pose proof (missing_fold d expected_pages []) as Hm.
  change (bad_header (Report [] [] [])) with (@nil string) in Hb.
  change (short_files (Report [] [] [])) with (@nil (string * nat)) in Hs.
  change (problems (Report [] [] [])) with (@nil string) in Hp.
  unfold verify, inspect, find_missing.
  revert Hb Hs Hp Hm.
  generalize (fold_left (inspect_step d) expected_pages (Report [] [] [])).
  generalize (fold_left (missing_step d) expected_pages []).
  intros missing rep Hb Hs Hp Hm.
  assert (Hzero : (if nonempty missing || nonempty (bad_header rep)
                      || nonempty (short_files rep) || nonempty (problems rep)
                   then 1%Z else 0%Z) = 0%Z
                  ↔ missing = [] ∧ bad_header rep = []
                    ∧ short_files rep = [] ∧ problems rep = []).
  { rewrite <- !nonempty_false.
    destruct (nonempty missing), (nonempty (bad_header rep)),
      (nonempty (short_files rep)), (nonempty (problems rep));
      cbn [orb]; intuition congruence. }
  rewrite Hzero, Hm, Hb, Hs, Hp. clear. split.
  - intros ((_ & Hmiss) & (_ & Hbad) & (_ & Hshort) & (_ & Hunread)) i Hi.
    apply elem_of_expected_pages in Hi.
    specialize (Hmiss i Hi). specialize (Hbad i Hi).
    specialize (Hshort i Hi). specialize (Hunread i Hi).
    unfold is_missing, has_bad_header, is_short, is_unreadable in *.
    destruct (d !! fname i) as [[|[|header data_rows]]|]; try done.
    + exfalso. apply Hshort. by left.
    + exists header, data_rows. split; [done|]. split.
      * destruct (header_is_bad header) eqn:Hh; [|done].
        exfalso. apply Hbad. by exists header, data_rows.
      * destruct (decide (EXPECTED_ROWS_PER_FILE ≤ data_count data_rows));
          [done|].
        exfalso. apply Hshort. right. exists header, data_rows. split; [done | lia].
  - intros Hsound.
    assert (Hs : ∀ i, i ∈ expected_pages →
                 ∃ header data_rows,
                   d !! fname i = Some (Csv (header :: data_rows))
                   ∧ header_is_bad header = false
                   ∧ EXPECTED_ROWS_PER_FILE ≤ data_count data_rows).
    { intros i Hi. by apply Hsound, elem_of_expected_pages. }
    unfold is_missing, has_bad_header, is_short, is_unreadable.
    repeat split; try done; intros i Hi;
      destruct (Hs i Hi) as (header & data_rows & Hfile & Hgood & Hrows);
      rewrite Hfile.
    + done.
    + intros (h & dr & [= <- <-] & Hbadh). congruence.
    + intros [[=]|(h & dr & [= <- <-] & Hlt)]. lia.
    + done.
Qed.

(** X17.  Files with other names than the expected ones have no bearing on
    the verdict: adding one to the directory, whatever it holds, leaves the
    exit status and all four lists as they are. *)
Theorem stray_files_do_not_matter (d : directory) (name : string) (nd : node) :
  (∀ i, expected i → name ≠ fname i) →
  verify (Some (<[name := nd]> d)) = verify (Some d)
  ∧ find_missing (<[name := nd]> d) = find_missing d
  ∧ inspect (<[name := nd]> d) = inspect d.
Proof.
  intros Hname.
  assert (Hext : ∀ i, i ∈ expected_pages →
                      <[name := nd]> d !! fname i = d !! fname i).
  { intros i Hi%elem_of_expected_pages. apply lookup_insert_ne. by apply Hname. }
  assert (Hmissing : find_missing (<[name := nd]> d) = find_missing d).
  { unfold find_missing. apply missing_fold_ext. exact Hext. }
  assert (Hinspect : inspect (<[name := nd]> d) = inspect d).
  { unfold inspect. apply inspect_fold_ext. exact Hext. }
  split; [|split; assumption]. unfold verify. rewrite Hmissing, Hinspect.
  reflexivity.
Qed.

Lemma stray_files_do_not_matter_witness :
  verify (Some (<["links.csv" := Unreadable]> Sites.full_links))
  = verify (Some Sites.full_links).
Proof.
  destruct (stray_files_do_not_matter Sites.full_links "links.csv" Unreadable)
    as [Hverify _]; [|exact Hverify].
  intros i _ H. unfold fname in H.
  change (String "l" "inks.csv" = String "p" ("age" +:+ pretty i +:+ ".csv")) in H.
  discriminate H.
Defined.

(** X18.  The verifier's lists say what they are printed as.  The missing
    files are the expected names that are absent, in page order; a file is
    listed as a read error exactly when it is expected and does not read,
    as having a bad header exactly when it is expected, reads, has a row
    and fails the header test, and as short, with a count, exactly when it
    is expected and either has no row at all (count 0) or has fewer than
    ten non-blank data rows (the count being their number). *)
Theorem verifier_lists (d : directory) :
  find_missing d = fname <$> filter (λ i, d !! fname i = None) expected_pages
  ∧ (∀ n, n ∈ problems (inspect d)
       ↔ ∃ i, expected i ∧ n = fname i ∧ is_unreadable d i)
  ∧ (∀ n, n ∈ bad_header (inspect d)
       ↔ ∃ i, expected i ∧ n = fname i ∧ has_bad_header d i)
  ∧ (∀ n k, (n, k) ∈ short_files (inspect d)
       ↔ ∃ i, expected i ∧ n = fname i
           ∧ (d !! fname i = Some (Csv []) ∧ k = 0
              ∨ ∃ header data_rows,
                  d !! fname i = Some (Csv (header :: data_rows))
                  ∧ k = data_count data_rows
                  ∧ k < EXPECTED_ROWS_PER_FILE)).
Proof.
  split; [unfold find_missing; rewrite missing_fold_filter; reflexivity|].
  destruct (inspect_fold_elem_of d expected_pages (Report [] [] []))
    as (Hp & Hb & Hs).
  cbv zeta in Hp, Hb, Hs. unfold inspect.
  split; [|split].
  - intros n. rewrite Hp. split.
    + intros [H|(i & Hi%elem_of_expected_pages & Hrest)];
        [by apply elem_of_nil in H | by exists i].
    + intros (i & Hi%elem_of_expected_pages & Hrest). right. by exists i.
  - intros n. rewrite Hb. split.
    + intros [H|(i & Hi%elem_of_expected_pages & Hrest)];
        [by apply elem_of_nil in H | by exists i].
    + intros (i & Hi%elem_of_expected_pages & Hrest). right. by exists i.
  - intros n k. rewrite Hs. split.
    + intros [H|(i & Hi%elem_of_expected_pages & Hrest)];
        [by apply elem_of_nil in H | by exists i].
    + intros (i & Hi%elem_of_expected_pages & Hrest). right. by exists i.
Qed.

End VerifierExtras.

(** ** From one script to the next *)

Module PipelineMore.

Lemma read_links_fold (links acc : list string) :
  fold_left Enricher.read_links_step (map (λ u, [u]) links) acc
  = acc ++ (PyStr.strip <$> links).
Proof.
  revert acc. induction links as [|u links IH]; intros acc; cbn [map fold_left].
  - by rewrite app_nil_r.
  - rewrite IH. cbn [Enricher.read_links_step]. by rewrite <- app_assoc.
Qed.

Lemma data_count_rows (links : list string) :
  VerifierSpec.data_count (map (λ u, [u]) links)
  = length (filter (λ u, PyStr.strip u ≠ "") links).
Proof.
  unfold VerifierSpec.data_count.
  induction links as [|u links IH]; [done|]. cbn [map].
  assert (Hu : Verifier.row_is_data [u] ↔ PyStr.strip u ≠ "").
  { cbn [Verifier.row_is_data existsb]. rewrite orb_false_r.
    destruct (PyStr.strip u); cbn [PyStr.truthy]; split; try done. }
  destruct (decide (PyStr.strip u ≠ "")) as [Hne|He].
  - rewrite (filter_cons_True (λ r, Verifier.row_is_data r)) by by apply Hu.
    rewrite (filter_cons_True (λ u, PyStr.strip u ≠ "")) by done.
    cbn [length]. by rewrite IH.
  - rewrite (filter_cons_False (λ r, Verifier.row_is_data r))
      by (intros H; by apply Hu in H).
    by rewrite (filter_cons_False (λ u, PyStr.strip u ≠ "")) by done.
Qed.

End PipelineMore.

Module PipelineExtras.
Import PipelineMore.

(** X19.  What the collector saves for a page the enricher reads back: the
    links of the page file written for a non-empty list of links are read
    as that list, in order, each link trimmed; for an empty list nothing is
    written, and the enricher reads what it read before. *)
Theorem page_file_read_back (files : directory) (page_links : list string)
    (page_num : Z) :
  (page_links ≠ [] →
     Enricher.read_links_for_page
       (Collector.save_page_file files page_links page_num) page_num
     = Some (PyStr.strip <$> page_links))
  ∧ (page_links = [] →
     Enricher.read_links_for_page
       (Collector.save_page_file files page_links page_num) page_num
     = Enricher.read_links_for_page files page_num).
Proof.
  split.
  - intros Hne. unfold Collector.save_page_file.
    destruct page_links as [|u us] eqn:Hl; [done|]. rewrite <- Hl. clear Hl Hne.
    unfold Enricher.read_links_for_page, isfile, read_csv.
    change (Enricher.links_file_name page_num)
      with (Collector.page_file_name page_num).
    rewrite lookup_insert_eq. cbn [negb mbind option_bind].
    unfold Collector.page_file_rows. cbn [skipn]. rewrite drop_0.
    by rewrite read_links_fold.
  - by intros ->.
Qed.

Lemma page_file_read_back_witness :
  Enricher.read_links_for_page
    (Collector.save_page_file ∅ [Sites.film_a; " " +:+ Sites.film_b] 7) 7
  = Some [Sites.film_a; Sites.film_b].
Proof.
  destruct (page_file_read_back ∅ [Sites.film_a; " " +:+ Sites.film_b] 7)
    as [Hread _].
  rewrite Hread; [reflexivity | discriminate].
Defined.

(** X20.  A page file the collector writes for one of the expected pages
    is, for the verifier, there, readable and with a sound header: its
    name is in none of the lists of missing files, read errors and bad
    headers.  The verifier counts as its data rows the links that are not
    blank, and lists the file as short, with that count, exactly when it
    has fewer than ten of them. *)
Theorem page_file_as_verified (files : directory) (page_links : list string)
    (page_num : Z) :
  VerifierSpec.expected page_num →
  page_links ≠ [] →
  let d := Collector.save_page_file files page_links page_num in
  let data_count := length (filter (λ u, PyStr.strip u ≠ "") page_links) in
  (Verifier.fname page_num ∉ Verifier.find_missing d)
  ∧ (Verifier.fname page_num ∉ Verifier.problems (Verifier.inspect d))
  ∧ (Verifier.fname page_num ∉ Verifier.bad_header (Verifier.inspect d))
  ∧ (∀ k, (Verifier.fname page_num, k) ∈ Verifier.short_files (Verifier.inspect d)
       ↔ k = data_count ∧ data_count < Verifier.EXPECTED_ROWS_PER_FILE).
Proof.
  intros Hpage Hne d data_count.
  assert (Hfile : d !! Verifier.fname page_num
                  = Some (Csv (["url"] :: map (λ u, [u]) page_links))).
  { unfold d, Collector.save_page_file. destruct page_links; [done|].
    apply lookup_insert_eq. }
  assert (Hinj : ∀ i, Verifier.fname page_num = Verifier.fname i → i = page_num).
  { intros i Hi. symmetry. by apply CollectorFacts.page_file_name_inj. }
  apply VerifierFacts.elem_of_expected_pages in Hpage.
  unfold Verifier.find_missing, Verifier.inspect.
  rewrite VerifierMore.missing_fold_filter.
  destruct (VerifierMore.inspect_fold_elem_of d Verifier.expected_pages
              (Verifier.Report [] [] [])) as (Hp & Hb & Hs).
  cbv zeta in Hp, Hb, Hs. revert Hp Hb Hs.
  generalize (fold_left (Verifier.inspect_step d) Verifier.expected_pages
                (Verifier.Report [] [] [])).
  intros rep Hp Hb Hs.
  split; [|split; [|split]].
  - rewrite app_nil_l. intros (i & Hi & Hin)%list_elem_of_fmap.
    apply list_elem_of_filter in Hin as [Hnone _].
    apply Hinj in Hi. subst i. congruence.
  - rewrite Hp. intros [H|(i & _ & Hi & Hbad)]; [by apply elem_of_nil in H|].
    apply Hinj in Hi. subst i. unfold VerifierSpec.is_unreadable in Hbad. congruence.
  - rewrite Hb. intros [H|(i & _ & Hi & Hbad)]; [by apply elem_of_nil in H|].
    apply Hinj in Hi. subst i.
    destruct Hbad as (h & dr & Hh & Hbad). rewrite Hfile in Hh.
    injection Hh as <- <-. vm_compute in Hbad. discriminate Hbad.
  - intros k. rewrite Hs. subst data_count.
    rewrite <- (data_count_rows page_links). split.
    + intros [H|(i & _ & Hi & Hshort)]; [by apply elem_of_nil in H|].
      apply Hinj in Hi. subst i.
      destruct Hshort as [[Hnil _]|(h & dr & Hh & -> & Hlt)]; [congruence|].
      rewrite Hfile in Hh. by injection Hh as <- <-.
    + intros [-> Hlt]. right. exists page_num. split; [done|]. split; [done|].
      right. by eexists _, _.
Qed.

Lemma page_file_as_verified_witness :
  (Verifier.fname 7, 2)
    ∈ Verifier.short_files
        (Verifier.inspect
           (Collector.save_page_file ∅ [Sites.film_a; Sites.film_b] 7)).
Proof.
  destruct (page_file_as_verified ∅ [Sites.film_a; Sites.film_b] 7)
    as (_ & _ & _ & Hshort).
  - unfold VerifierSpec.expected, Verifier.EXPECTED_COUNT. lia.
  - discriminate.
  - apply Hshort. split; [vm_compute; reflexivity | vm_compute; lia].
Defined.

(** X21.  A link that cannot be reached gets its page flagged: when the
    page file of a page with a non-negative number lists a URL whose
    navigation times out whatever the state of the browser, the gap
    finder, run on the directory that a completed run of the enricher over
    that page leaves, flags the page; and the run completes when no
    navigation to a link of the page fails otherwise than by a timeout. *)
Theorem unreachable_link_flags_page (B : WebPage) (links_dir : directory)
    (page_num : Z) (st : World B * directory) (links : list string)
    (url : string) :
  (0 ≤ page_num)%Z →
  Enricher.read_links_for_page links_dir page_num = Some links →
  url ∈ links →
  (∀ w, (goto B url w).2 = false) →
  (∀ st',
     Enricher.scrape_range B links_dir page_num page_num st = Some st' →
     ∃ pages,
       GapFinder.find_pages_with_missing (Some st'.2) = Some pages
       ∧ page_num ∈ pages)
  ∧ ((∀ u w, u ∈ links → goto_raises B u w = false) →
     is_Some (Enricher.scrape_range B links_dir page_num page_num st)).
Proof.
  intros Hpage Hread Hin Hdown. rewrite EnricherFacts.scrape_range_single.
  assert (Hne : links ≠ []) by (intros ->; by apply elem_of_nil in Hin).
  split.
  - intros st' Hrun.
    destruct (EnricherFacts.scrape_page_written B _ _ _ _ _ Hrun Hread Hne)
      as (results & Hout & Hrows).
    pose proof (EnricherMore.rows_for_timeout B url links results Hin Hdown Hrows)
      as Hrow.
    destruct (GapFinderMore.find_pages_spec st'.2) as (pages & Hfind & Hpages).
    exists pages. split; [exact Hfind|]. apply Hpages.
    exists (Enricher.out_file_name page_num), (Csv (Enricher.HEADER :: results)).
    split; [rewrite Hout; apply lookup_insert_eq|]. split.
    + rewrite GapFinderMore.page_of_out_file_name. by rewrite bool_decide_eq_true_2.
    + apply GapFinderMore.enricher_file_incomplete. right.
      exists [url; ""; ""; ""]. split; [done|]. by left.
  - intros Hok. by eapply EnricherFacts.scrape_page_completes.
Qed.

Lemma unreachable_link_flags_page_witness :
  ∃ st' pages,
    Enricher.scrape_range Sites.two_films Sites.two_film_links 1 1 ("", ∅) = Some st'
    ∧ GapFinder.find_pages_with_missing (Some st'.2) = Some pages
    ∧ 1%Z ∈ pages.
Proof.
  destruct (unreachable_link_flags_page Sites.two_films Sites.two_film_links 1
              ("", ∅) [Sites.film_a; Sites.film_b] Sites.film_a)
    as [Hflagged Hdone].
  - lia.
  - reflexivity.
  - left.
  - intros w. reflexivity.
  - destruct Hdone as [st' Hrun]; [reflexivity|].
    destruct (Hflagged st' Hrun) as (pages & Hfind & Hpage).
    by exists st', pages.
Defined.

End PipelineExtras.
